(** * The journal plugin of avocado ([avocado/plugins/journal.py])

    A shallow embedding of [TestResultJournal] together with the parts of
    its environment that the plugin talks to: Python dictionaries and
    exceptions, [os.path.join], [datetime], and the fragment of [sqlite3]
    (connections, implicit transactions, the six kinds of statement below)
    that decides what ends up in the journal file.

    What is modelled of the environment:
    - a [state] is a dictionary from strings to strings, and [d[k]] raises
      [KeyError] on a missing key;
    - an attribute that was never assigned raises [AttributeError] when it
      is read;
    - a database file is the set of its tables, a table its columns and
      its rows; a connection reads and writes the file, through a
      transaction that the sqlite3 module opens before a data-modifying
      statement and that [commit] ends;
    - opening a database fails on a path that cannot be opened; other
      failures of the storage (a full disk, a read error) are left out;
    - the wall clock is a sequence of readings, one taken by each call of
      [now];
    - every call made to sqlite3 is logged in a trace. *)

From Stdlib Require Import String Ascii ZArith List Lia.
From stdpp Require Import gmap strings list fin_maps functions pretty.
Import ListNotations.

Local Open Scope string_scope.
Local Open Scope list_scope.

(** ** Python exceptions *)

Inductive exn :=
| KeyError (key : string)
| AttributeError (attr : string)
| OperationalError (msg : string)
| IntegrityError (msg : string)
| ProgrammingError (msg : string)
| ValueError (msg : string)
| OtherError (msg : string).

(** ** SQLite: values, tables, statements *)

Inductive sqlval :=
| SNull
| SInt (z : Z)
| SText (s : string).

#[global] Instance sqlval_eq_dec : EqDecision sqlval.
Proof. solve_decision. Defined.

Record column := Column {
  col_name : string;
  col_type : string;
  col_unique : bool;
  col_default : option sqlval
}.

Record table := Table {
  tbl_columns : list column;
  tbl_rows : list (list sqlval)
}.

Abbreviation database := (gmap string table).

(** The statements of SQL that the engine model understands.  Every
    value is bound through a [?] placeholder, as the plugin does. *)
Inductive stmt :=
| PragmaTableInfo (t : string)
| CreateTable (t : string) (cols : list column)
| SelectFrom (cols : list string) (t : string)
| InsertInto (t : string) (cols : list string)
| UpdateSet (t : string) (col : string)
| DeleteFrom (t : string).

Inductive stmt_kind := KindDML | KindQuery | KindOther.

Definition kind_of (s : stmt) : stmt_kind :=
  match s with
  | InsertInto _ _ | UpdateSet _ _ | DeleteFrom _ => KindDML
  | SelectFrom _ _ => KindQuery
  | PragmaTableInfo _ | CreateTable _ _ => KindOther
  end.

Definition is_update_or_delete (s : stmt) : bool :=
  match s with
  | UpdateSet _ _ | DeleteFrom _ => true
  | _ => false
  end.

(** *** The text of a statement *)

Fixpoint join (sep : string) (l : list string) : string :=
  match l with
  | [] => ""
  | [x] => x
  | x :: l' => x +:+ sep +:+ join sep l'
  end.

Definition sql_literal (v : sqlval) : string :=
  match v with
  | SNull => "NULL"
  | SInt z => pretty z
  | SText s => "'" +:+ s +:+ "'"
  end.

Definition column_def (c : column) : string :=
  col_name c +:+ " " +:+ col_type c
  +:+ (if col_unique c then " UNIQUE" else "")
  +:+ (match col_default c with
       | Some v => " DEFAULT " +:+ sql_literal v
       | None => ""
       end).

Definition sql_text (s : stmt) : string :=
  match s with
  | PragmaTableInfo t => "PRAGMA table_info('" +:+ t +:+ "')"
  | CreateTable t cols =>
      "CREATE TABLE " +:+ t +:+ " (" +:+ join ", " (map column_def cols) +:+ ")"
  | SelectFrom cols t => "SELECT " +:+ join ", " cols +:+ " FROM " +:+ t
  | InsertInto t cols =>
      "INSERT INTO " +:+ t +:+ " (" +:+ join ", " cols +:+ ") VALUES ("
      +:+ join ", " (map (fun _ => "?") cols) +:+ ")"
  | UpdateSet t col => "UPDATE " +:+ t +:+ " SET " +:+ col +:+ " = ?"
  | DeleteFrom t => "DELETE FROM " +:+ t
  end.

(** *** Running one statement against a database *)

Fixpoint index_of (name : string) (cols : list column) : option nat :=
  match cols with
  | [] => None
  | c :: cols' =>
      if String.eqb (col_name c) name then Some 0
      else option_map S (index_of name cols')
  end.

(** One row of [PRAGMA table_info]: cid, name, type, notnull, dflt_value, pk. *)
Definition table_info_row (cid : nat) (c : column) : list sqlval :=
  [SInt (Z.of_nat cid); SText (col_name c); SText (col_type c); SInt 0;
   match col_default c with
   | Some v => SText (sql_literal v)
   | None => SNull
   end;
   SInt 0].

Definition table_info (t : table) : list (list sqlval) :=
  imap table_info_row (tbl_columns t).

(** The value an [INSERT] stores in column [c]: the parameter bound to it
    when the statement names the column, the column's default otherwise. *)
Fixpoint bound_value (c : column) (cols : list string) (params : list sqlval)
  : sqlval :=
  match cols, params with
  | n :: cols', v :: params' =>
      if String.eqb n (col_name c) then v else bound_value c cols' params'
  | _, _ => default SNull (col_default c)
  end.

Definition new_row (t : table) (cols : list string) (params : list sqlval)
  : list sqlval :=
  map (fun c => bound_value c cols params) (tbl_columns t).

Definition column_values (i : nat) (rows : list (list sqlval)) : list sqlval :=
  map (fun r => default SNull (r !! i)) rows.

(** A [UNIQUE] column refuses a non-null value it already holds. *)
Definition violates_unique (t : table) (row : list sqlval) : bool :=
  existsb
    (fun '(i, c) =>
       col_unique c &&
       match default SNull (row !! i) with
       | SNull => false
       | v => bool_decide (v ∈ column_values i (tbl_rows t))
       end)
    (imap pair (tbl_columns t)).

Definition all_known (cols : list string) (t : table) : bool :=
  forallb (fun n => bool_decide (is_Some (index_of n (tbl_columns t)))) cols.

Definition project (t : table) (cols : list string) (r : list sqlval)
  : list sqlval :=
  map (fun n => default SNull (i ← index_of n (tbl_columns t); r !! i)) cols.

Definition no_such_table (t : string) : exn :=
  OperationalError ("no such table: " +:+ t).

(** The notifications of a job, delivered in order. *)
Definition run_stmt (s : stmt) (params : list sqlval) (d : database)
  : exn + (database * list (list sqlval)) :=
  match s with
  | PragmaTableInfo t =>
      match d !! t with
      | Some tb => inr (d, table_info tb)
      | None => inr (d, [])
      end
  | CreateTable t cols =>
      match d !! t with
      | Some _ => inl (OperationalError ("table " +:+ t +:+ " already exists"))
      | None => inr (<[t := Table cols []]> d, [])
      end
  | SelectFrom cols t =>
      match d !! t with
      | None => inl (no_such_table t)
      | Some tb =>
          if all_known cols tb
          then inr (d, map (project tb cols) (tbl_rows tb))
          else inl (OperationalError "no such column")
      end
  | InsertInto t cols =>
      match d !! t with
      | None => inl (no_such_table t)
      | Some tb =>
          if negb (all_known cols tb)
          then inl (OperationalError "no such column")
          else if negb (length params =? length cols)%nat
          then inl (ProgrammingError "Incorrect number of bindings supplied")
          else
            let row := new_row tb cols params in
            if violates_unique tb row
            then inl (IntegrityError "UNIQUE constraint failed")
            else inr (<[t := Table (tbl_columns tb) (tbl_rows tb ++ [row])]> d, [])
      end
  | UpdateSet t col =>
      match d !! t with
      | None => inl (no_such_table t)
      | Some tb =>
          match index_of col (tbl_columns tb), params with
          | None, _ => inl (OperationalError "no such column")
          | Some i, [v] =>
              let rows := map (fun r => <[i := v]> r) (tbl_rows tb) in
              if existsb (fun c => String.eqb (col_name c) col && col_unique c)
                         (tbl_columns tb)
                 && negb (bool_decide (v = SNull))
                 && (1 <? length rows)%nat
              then inl (IntegrityError "UNIQUE constraint failed")
              else inr (<[t := Table (tbl_columns tb) rows]> d, [])
          | Some _, _ =>
              inl (ProgrammingError "Incorrect number of bindings supplied")
          end
      end
  | DeleteFrom t =>
      match d !! t with
      | None => inl (no_such_table t)
      | Some tb => inr (<[t := Table (tbl_columns tb) []]> d, [])
      end
  end.

(** ** [os.path.join] (posixpath), for two components *)

Definition startswith (p s : string) : bool := String.prefix p s.

Fixpoint endswith_slash (s : string) : bool :=
  match s with
  | "" => false
  | String c "" => Ascii.eqb c "/"
  | String _ s' => endswith_slash s'
  end.

Definition os_path_join (a b : string) : string :=
  if startswith "/" b then b
  else if String.eqb a "" || endswith_slash a then a +:+ b
  else a +:+ "/" +:+ b.

(** ** [datetime] *)

Record datetime := Datetime {
  year : N; month : N; day : N;
  hour : N; minute : N; second : N; microsecond : N
}.

Definition is_leap (y : N) : bool :=
  ((y mod 4 =? 0) && negb (y mod 100 =? 0) || (y mod 400 =? 0))%N.

Definition days_in_month (y m : N) : N :=
  (if m =? 2 then (if is_leap y then 29 else 28)
   else if (m =? 4) || (m =? 6) || (m =? 9) || (m =? 11) then 30
   else 31)%N.

Definition valid_date (y m d : N) : bool :=
  ((1 <=? y) && (y <=? 9999) && (1 <=? m) && (m <=? 12)
   && (1 <=? d) && (d <=? days_in_month y m))%N.

Definition valid_datetime (t : datetime) : bool :=
  valid_date (year t) (month t) (day t)
  && ((hour t <? 24) && (minute t <? 60) && (second t <? 60)
      && (microsecond t <? 1000000))%N.

(** [datetime.datetime(y, m, d)]: midnight of that day. *)
Definition datetime_datetime (y m d : N) : exn + datetime :=
  if valid_date y m d then inr (Datetime y m d 0 0 0 0)
  else inl (ValueError "date value out of range").

(** Decimal digits, least significant last, in exactly [w] characters. *)
Definition digit (n : N) : ascii := ascii_of_N (48 + n mod 10).

Fixpoint fixed_digits (w : nat) (n : N) : string :=
  match w with
  | O => ""
  | S w' => fixed_digits w' (n / 10) +:+ String (digit n) ""
  end.

(** Python's ["%0wd" % n]: at least [w] digits, zero padded. *)
Definition zero_pad (w : nat) (n : N) : string :=
  if (n <? 10 ^ N.of_nat w)%N then fixed_digits w n else pretty n.

(** [datetime.isoformat()] of a naive datetime: the fraction is left out
    when the microsecond is zero. *)
Definition isoformat (t : datetime) : string :=
  zero_pad 4 (year t) +:+ "-" +:+ zero_pad 2 (month t) +:+ "-"
  +:+ zero_pad 2 (day t) +:+ "T" +:+ zero_pad 2 (hour t) +:+ ":"
  +:+ zero_pad 2 (minute t) +:+ ":" +:+ zero_pad 2 (second t)
  +:+ (if (microsecond t =? 0)%N then ""
       else "." +:+ zero_pad 6 (microsecond t)).

(** Chronological order of naive datetimes: field by field. *)
Definition then_compare (c : comparison) (k : comparison) : comparison :=
  match c with Eq => k | _ => c end.

Definition datetime_compare (a b : datetime) : comparison :=
  then_compare (year a ?= year b)%N
  (then_compare (month a ?= month b)%N
  (then_compare (day a ?= day b)%N
  (then_compare (hour a ?= hour b)%N
  (then_compare (minute a ?= minute b)%N
  (then_compare (second a ?= second b)%N
                (microsecond a ?= microsecond b)%N))))).

Definition datetime_le (a b : datetime) : Prop := datetime_compare a b <> Gt.

(** ** The world outside the recorder *)

Record connection := Connection {
  conn_path : string;
  conn_closed : bool;
  conn_txn : option database   (* the working copy of an open transaction *)
}.

Inductive event :=
| EvConnect (path : string) (h : nat)
| EvExecute (h : nat) (s : stmt) (params : list sqlval)
| EvCommit (h : nat)
| EvClose (h : nat).

Record World := mkWorld {
  files : gmap string database;   (* committed content of each database file *)
  unopenable : gset string;       (* paths the engine cannot open or create *)
  conns : list connection;        (* connection objects, by handle *)
  clock : nat -> datetime;        (* successive readings of the wall clock *)
  ticks : nat;                    (* readings taken so far *)
  trace : list event              (* calls made to sqlite3, oldest first *)
}.

Definition set_files (f : gmap string database) (w : World) : World :=
  mkWorld f (unopenable w) (conns w) (clock w) (ticks w) (trace w).
Definition set_conns (cs : list connection) (w : World) : World :=
  mkWorld (files w) (unopenable w) cs (clock w) (ticks w) (trace w).
Definition set_ticks (n : nat) (w : World) : World :=
  mkWorld (files w) (unopenable w) (conns w) (clock w) n (trace w).
Definition log (e : event) (w : World) : World :=
  mkWorld (files w) (unopenable w) (conns w) (clock w) (ticks w) (trace w ++ [e]).

Definition committed (w : World) (path : string) : database :=
  default ∅ (files w !! path).

(** What a connection reads: its open transaction, else the file. *)
Definition view (w : World) (c : connection) : database :=
  default (committed w (conn_path c)) (conn_txn c).

Definition set_txn (t : option database) (c : connection) : connection :=
  Connection (conn_path c) (conn_closed c) t.

(** Ends the open transaction of [h], if any, writing it to the file. *)
Definition flush (h : nat) (c : connection) (w : World) : World :=
  match conn_txn c with
  | Some d =>
      set_conns (<[h := set_txn None c]> (conns w))
                (set_files (<[conn_path c := d]> (files w)) w)
  | None => w
  end.

Definition closed_database : exn :=
  ProgrammingError "Cannot operate on a closed database.".

(** ** Python dictionaries with string keys and values: the [state] that
    the test runner hands to every notification *)

Abbreviation pydict := (gmap string string).

(** ** The schema, as the module declares it

    [SCHEMA] is a dictionary from table names to the text of their
    [CREATE TABLE] statement; here each statement stands in parsed form,
    and [sql_text] gives its text back.  A loop over the dictionary visits
    the keys in the order in which they are written. *)

Definition JOURNAL_FILENAME : string := ".journal.sqlite".

Definition SCHEMA : list (string * stmt) :=
  [("job_info",
    CreateTable "job_info" [Column "unique_id" "TEXT" true None]);
   ("test_journal",
    CreateTable "test_journal"
      [Column "tag" "TEXT" false None;
       Column "time" "TEXT" false None;
       Column "action" "TEXT" false None;
       Column "status" "TEXT" false None;
       Column "flushed" "BOOLEAN" false (Some (SInt 0))])].

Definition dict_keys {V} (d : list (string * V)) : list string := map fst d.

Fixpoint dict_get {V} (d : list (string * V)) (k : string) : option V :=
  match d with
  | [] => None
  | (k', v) :: d' => if String.eqb k' k then Some v else dict_get d' k
  end.

(** ** The recorder *)

Inductive outcome (A : Type) :=
| Return (a : A)
| Raise (e : exn).
Arguments Return {A} a.
Arguments Raise {A} e.

Section Recorder.

(** [TestResult], the base class, is not part of this module: its state
    and its three methods used here are parameters.  A method of the base
    class sees the notification and may raise; it does not touch the
    journal's own attributes. *)
Context {Base : Type}.
Variable TestResult_init : Base.
Variable TestResult_start_test : Base -> pydict -> exn + Base.
Variable TestResult_end_test : Base -> pydict -> exn + Base.

(** The attributes of a [TestResultJournal] object.  [None] stands for an
    attribute that has not been assigned yet. *)
Record Self := mkSelf {
  base : Base;
  journal_initialized : bool;
  journal_path : option string;
  journal : option nat;          (* handle of the connection object *)
  journal_cursor : option nat    (* a cursor: the handle of its connection *)
}.

(** A method runs on the object and the world, and returns or raises;
    what it changed before raising stays changed.  Methods are written
    with stdpp's notations for monads: [x ← m ; k] and [m ;; k]. *)
Definition M (A : Type) : Type := Self * World -> outcome A * (Self * World).

#[local] Instance M_ret : MRet M := fun A a c => (Return a, c).
#[local] Instance M_bind : MBind M := fun A B k m c =>
  match m c with
  | (Return a, c') => k a c'
  | (Raise e, c') => (Raise e, c')
  end.

Definition raise {A} (e : exn) : M A := fun c => (Raise e, c).

Definition getattr {A} (name : string) (field : Self -> option A) : M A :=
  fun c =>
    match field (fst c) with
    | Some a => (Return a, c)
    | None => (Raise (AttributeError name), c)
    end.

Definition setattr (f : Self -> Self) : M unit :=
  fun c => (Return tt, (f (fst c), snd c)).

Definition set_journal_initialized (b : bool) (s : Self) : Self :=
  mkSelf (base s) b (journal_path s) (journal s) (journal_cursor s).
Definition set_journal_path (p : string) (s : Self) : Self :=
  mkSelf (base s) (journal_initialized s) (Some p) (journal s) (journal_cursor s).
Definition set_journal (h : nat) (s : Self) : Self :=
  mkSelf (base s) (journal_initialized s) (journal_path s) (Some h) (journal_cursor s).
Definition set_journal_cursor (h : nat) (s : Self) : Self :=
  mkSelf (base s) (journal_initialized s) (journal_path s) (journal s) (Some h).
Definition set_base (b : Base) (s : Self) : Self :=
  mkSelf b (journal_initialized s) (journal_path s) (journal s) (journal_cursor s).

(** [d[k]] *)
Definition getitem (d : pydict) (k : string) : M string :=
  match d !! k with
  | Some v => mret v
  | None => raise (KeyError k)
  end.

(** A call to a method of the base class. *)
Definition call_base (method : Base -> pydict -> exn + Base) (state : pydict)
  : M unit :=
  fun c =>
    match method (base (fst c)) state with
    | inr b => (Return tt, (set_base b (fst c), snd c))
    | inl e => (Raise e, c)
    end.

(** *** sqlite3 *)

(** [sqlite3.connect(path)]: a new connection; the file is created, empty,
    when it does not exist. *)
Definition sqlite3_connect (path : string) : M nat :=
  fun c =>
    let w := snd c in
    if bool_decide (path ∈ unopenable w)
    then (Raise (OperationalError "unable to open database file"), c)
    else
      let h := length (conns w) in
      let w1 := set_files (<[path := committed w path]> (files w)) w in
      let w2 := set_conns (conns w ++ [Connection path false None]) w1 in
      (Return h, (fst c, log (EvConnect path h) w2)).

(** Runs [k] on the connection behind handle [h], which must be open. *)
Definition on_open {A} (h : nat)
    (k : connection -> World -> outcome A * World) : M A :=
  fun c =>
    match conns (snd c) !! h with
    | Some cn =>
        if conn_closed cn then (Raise closed_database, c)
        else let r := k cn (snd c) in (fst r, (fst c, snd r))
    | None => (Raise (ProgrammingError "no such connection"), c)
    end.

(** [connection.cursor()] *)
Definition connection_cursor (h : nat) : M nat :=
  on_open h (fun _ w => (Return h, w)).

(** An error that the engine finds when it compiles a statement: an
    unknown table or column, a table that exists already.  The other
    errors (a wrong number of bindings, a constraint) come up when the
    compiled statement is bound and run. *)
Definition found_at_compile (e : exn) : bool :=
  match e with OperationalError _ => true | _ => false end.

(** [cursor.execute(sql, params)].  As the sqlite3 module does by default,
    a transaction is opened before a data-modifying statement is run, a
    query runs in whatever transaction is open, and any other statement
    first commits the open transaction and then runs on the file
    directly.  The statement is compiled first: a data-modifying
    statement that does not compile raises before a transaction is
    opened, one that fails later leaves the transaction open. *)
Definition execute_on (h : nat) (s : stmt) (params : list sqlval)
    (cn : connection) (w0 : World) : outcome (list (list sqlval)) * World :=
  let w := log (EvExecute h s params) w0 in
  match kind_of s with
  | KindDML =>
      match run_stmt s params (view w cn) with
      | inr (d, rows) =>
          (Return rows, set_conns (<[h := set_txn (Some d) cn]> (conns w)) w)
      | inl e =>
          (Raise e,
           if found_at_compile e then w
           else set_conns (<[h := set_txn (Some (view w cn)) cn]> (conns w)) w)
      end
  | KindQuery =>
      match run_stmt s params (view w cn) with
      | inr (_, rows) => (Return rows, w)
      | inl e => (Raise e, w)
      end
  | KindOther =>
      let w1 := flush h cn w in
      match run_stmt s params (committed w1 (conn_path cn)) with
      | inr (d, rows) =>
          (Return rows, set_files (<[conn_path cn := d]> (files w1)) w1)
      | inl e => (Raise e, w1)
      end
  end.

Definition cursor_execute (cur : nat) (s : stmt) (params : list sqlval)
  : M (list (list sqlval)) :=
  on_open cur (execute_on cur s params).

(** [cursor.fetchone()] right after [execute]: the first row, or [None]. *)
Definition fetchone (res : list (list sqlval)) : option (list sqlval) :=
  head res.

(** [connection.commit()] *)
Definition connection_commit (h : nat) : M unit :=
  on_open h (fun cn w => (Return tt, flush h cn (log (EvCommit h) w))).

(** [connection.close()]: an open transaction is rolled back; closing a
    closed connection does nothing. *)
Definition connection_close (h : nat) : M unit :=
  fun c =>
    let w := log (EvClose h) (snd c) in
    match conns w !! h with
    | Some cn =>
        (Return tt,
         (fst c,
          set_conns (<[h := Connection (conn_path cn) true None]> (conns w)) w))
    | None => (Raise (ProgrammingError "no such connection"), c)
    end.

(** [cls.now()]: a class method, so the object it is called through does
    not matter; it reads the wall clock. *)
Definition datetime_now (through : datetime) : M datetime :=
  fun c =>
    let w := snd c in
    (Return (clock w (ticks w)), (fst c, set_ticks (S (ticks w)) w)).

Definition lift_exn {A} (r : exn + A) : M A :=
  match r with
  | inr a => mret a
  | inl e => raise e
  end.

Fixpoint for_each {A} (l : list A) (body : A -> M unit) : M unit :=
  match l with
  | [] => mret tt
  | x :: l' => body x ;; for_each l' body
  end.

(** *** The methods of [TestResultJournal] *)

(** [__init__]: the base class is initialised and the flag is cleared;
    [journal_path], [journal] and [journal_cursor] are not assigned. *)
Definition __init__ : Self :=
  mkSelf TestResult_init false None None None.

(** The body of the loop of [_init_journal], for one table of [SCHEMA]. *)
Definition _init_journal_table (table : string) : M unit :=
  cur ← getattr "journal_cursor" journal_cursor ;
  res ← cursor_execute cur (PragmaTableInfo table) [] ;
  match fetchone res with
  | None =>
      cur ← getattr "journal_cursor" journal_cursor ;
      ddl ← match dict_get SCHEMA table with
            | Some s => mret s
            | None => raise (KeyError table)
            end ;
      cursor_execute cur ddl [] ;;
      mret tt
  | Some _ => mret tt
  end.

Definition _init_journal (logdir : string) : M unit :=
  setattr (set_journal_path (os_path_join logdir JOURNAL_FILENAME)) ;;
  path ← getattr "journal_path" journal_path ;
  conn ← sqlite3_connect path ;
  setattr (set_journal conn) ;;
  j ← getattr "journal" journal ;
  cur ← connection_cursor j ;
  setattr (set_journal_cursor cur) ;;
  for_each (dict_keys SCHEMA) _init_journal_table ;;
  j ← getattr "journal" journal ;
  connection_commit j.

Definition _record_job_info (state : pydict) : M unit :=
  cur ← getattr "journal_cursor" journal_cursor ;
  res ← cursor_execute cur (SelectFrom ["unique_id"] "job_info") [] ;
  match fetchone res with
  | None =>
      let sql := InsertInto "job_info" ["unique_id"] in
      cur ← getattr "journal_cursor" journal_cursor ;
      uid ← getitem state "job_unique_id" ;
      cursor_execute cur sql [SText uid] ;;
      j ← getattr "journal" journal ;
      connection_commit j
  | Some _ => mret tt
  end.

Definition lazy_init_journal (state : pydict) : M unit :=
  fun c =>
    if negb (journal_initialized (fst c))
    then (logdir ← getitem state "job_logdir" ;
          _init_journal logdir ;;
          _record_job_info state ;;
          setattr (set_journal_initialized true)) c
    else (Return tt, c).

Definition _shutdown_journal : M unit :=
  j ← getattr "journal" journal ;
  connection_close j.

(** The arguments of [execute] are evaluated from left to right, after
    the cursor; [datetime.datetime(1, 1, 1).now()] calls the class method
    [now] through an instance. *)
Definition _record_status (state : pydict) (action : string) : M unit :=
  let sql := InsertInto "test_journal" ["tag"; "time"; "action"; "status"] in
  status ← (if String.eqb action "ENDED"
            then v ← getitem state "status" ; mret (SText v)
            else mret SNull) ;
  cur ← getattr "journal_cursor" journal_cursor ;
  tagged_name ← getitem state "tagged_name" ;
  epoch ← lift_exn (datetime_datetime 1 1 1) ;
  now ← datetime_now epoch ;
  cursor_execute cur sql
    [SText tagged_name; SText (isoformat now); SText action; status] ;;
  j ← getattr "journal" journal ;
  connection_commit j.

Definition start_test (state : pydict) : M unit :=
  lazy_init_journal state ;;
  call_base TestResult_start_test state ;;
  _record_status state "STARTED".

Definition end_test (state : pydict) : M unit :=
  lazy_init_journal state ;;
  call_base TestResult_end_test state ;;
  _record_status state "ENDED".

Definition end_tests : M unit :=
  _shutdown_journal.

(** ** Reading the model: what is in the file, and what a run does to it *)

Implicit Types (s : Self) (w : World) (state : pydict).

(** The columns of the two tables, as [SCHEMA] declares them. *)
Definition job_info_columns : list column := [Column "unique_id" "TEXT" true None].
Definition test_journal_columns : list column :=
  [Column "tag" "TEXT" false None; Column "time" "TEXT" false None;
   Column "action" "TEXT" false None; Column "status" "TEXT" false None;
   Column "flushed" "BOOLEAN" false (Some (SInt 0))].

(** The statement of [_record_status]. *)
Definition insert_status : stmt :=
  InsertInto "test_journal" ["tag"; "time"; "action"; "status"].

(** Every table of the schema that the file already has, has columns
    (as every table of a database has). *)
Definition catalog_ok (d : database) : Prop :=
  forall t tb, In t (dict_keys SCHEMA) -> d !! t = Some tb ->
               tbl_columns tb <> [].

(** The tables of the schema that the file has, have the columns of the
    schema: the file is new, or was written by this plugin. *)
Definition well_shaped (d : database) : Prop :=
  (forall tb, d !! "job_info" = Some tb -> tbl_columns tb = job_info_columns)
  /\ (forall tb, d !! "test_journal" = Some tb ->
                 tbl_columns tb = test_journal_columns).

(** [ensureSchema], in the words of the design: for each table of the
    schema, when the catalog does not have it, create it. *)
Definition ensure_table (d : database) (entry : string * stmt) : database :=
  match d !! fst entry, snd entry with
  | None, CreateTable t cols => <[t := Table cols []]> d
  | _, _ => d
  end.

Definition ensureSchema (d : database) : database :=
  fold_left ensure_table SCHEMA d.

(** The calls that go with it: the lookup in the catalog, then the
    creation when the table is absent. *)
Definition ensure_events (h : nat) (d : database) (entry : string * stmt)
  : list event :=
  EvExecute h (PragmaTableInfo (fst entry)) []
  :: match d !! fst entry with
     | None => [EvExecute h (snd entry) []]
     | Some _ => []
     end.

Fixpoint schema_events (h : nat) (d : database) (entries : list (string * stmt))
  : list event :=
  match entries with
  | [] => []
  | e :: es => ensure_events h d e ++ schema_events h (ensure_table d e) es
  end.

(** The rows of table [t]; none when the file has no such table. *)
Definition rows_of (d : database) (t : string) : list (list sqlval) :=
  default [] (tbl_rows <$> d !! t).

(** The statements of [_record_job_info]. *)
Definition select_job : stmt := SelectFrom ["unique_id"] "job_info".
Definition insert_job : stmt := InsertInto "job_info" ["unique_id"].

(** What [_record_job_info] leaves in the file: the id goes in only when
    the table has no row. *)
Definition record_job (uid : string) (d : database) : database :=
  match rows_of d "job_info" with
  | [] => <["job_info" := Table job_info_columns [[SText uid]]]> d
  | _ => d
  end.

(** The calls that go with it. *)
Definition job_events (h : nat) (uid : string) (d : database) : list event :=
  EvExecute h select_job []
  :: match rows_of d "job_info" with
     | [] => [EvExecute h insert_job [SText uid]; EvCommit h]
     | _ => []
     end.

(** The status that [_record_status] binds: [state['status']] when the
    action is [ENDED], null otherwise; [None] when the key is read and
    missing. *)
Definition status_value state (action : string) : option sqlval :=
  if String.eqb action "ENDED" then SText <$> state !! "status" else Some SNull.

(** The object after [_init_journal], and after [lazy_init_journal]. *)
Definition opened (p : string) (h : nat) (s : Self) : Self :=
  mkSelf (base s) (journal_initialized s) (Some p) (Some h) (Some h).

Definition activated (p : string) (h : nat) (s : Self) : Self :=
  mkSelf (base s) true (Some p) (Some h) (Some h).

(** The calls of a first [lazy_init_journal]. *)
Definition init_events (p : string) (h : nat) (uid : string) (d : database)
  : list event :=
  [EvConnect p h] ++ schema_events h d SCHEMA ++ [EvCommit h]
  ++ job_events h uid (ensureSchema d).

(** What the test runner sends: a test starts, a test ends. *)
Inductive notification :=
| OnTestStart (state : pydict)
| OnTestEnd (state : pydict).

Definition state_of (n : notification) : pydict :=
  match n with OnTestStart st | OnTestEnd st => st end.

Definition action_of (n : notification) : string :=
  match n with OnTestStart _ => "STARTED" | OnTestEnd _ => "ENDED" end.

(** The method of the base class that the notification reaches. *)
Definition base_method (n : notification) : Base -> pydict -> exn + Base :=
  match n with
  | OnTestStart _ => TestResult_start_test
  | OnTestEnd _ => TestResult_end_test
  end.

Definition notify (n : notification) : M unit :=
  match n with
  | OnTestStart st => start_test st
  | OnTestEnd st => end_test st
  end.

(** The notification carries what the write path reads. *)
Definition accepted (n : notification) : Prop :=
  is_Some (state_of n !! "tagged_name")
  /\ is_Some (status_value (state_of n) (action_of n)).

(** The values that the insert of notification [n] binds at [time], and
    the row they make: [flushed] is not bound and takes its default. *)
Definition params_of (time : string) (n : notification) : list sqlval :=
  [SText (default "" (state_of n !! "tagged_name")); SText time;
   SText (action_of n);
   default SNull (status_value (state_of n) (action_of n))].

Definition row_of (time : string) (n : notification) : list sqlval :=
  params_of time n ++ [SInt 0].

(** Both tables exist, with the columns of the schema. *)
Definition ready (d : database) : Prop :=
  d !! "job_info" = Some (Table job_info_columns (rows_of d "job_info"))
  /\ d !! "test_journal"
     = Some (Table test_journal_columns (rows_of d "test_journal")).

(** The file with one more row, and with more rows, in [test_journal]. *)
Definition append_row (row : list sqlval) (d : database) : database :=
  <["test_journal" :=
      Table test_journal_columns (rows_of d "test_journal" ++ [row])]> d.

(** An initialised recorder: its connection is open on its journal file,
    outside any transaction, and the file has both tables. *)
Definition active (s : Self) (w : World) (p : string) (h : nat) : Prop :=
  journal_initialized s = true /\ journal_path s = Some p
  /\ journal s = Some h /\ journal_cursor s = Some h
  /\ conns w !! h = Some (Connection p false None)
  /\ exists d, files w !! p = Some d /\ ready d.

(** The calls of one [_record_status]. *)
Definition write_events (h : nat) (time : string) (n : notification)
  : list event :=
  [EvExecute h insert_status (params_of time n); EvCommit h].

Definition run (ns : list notification) : M unit := for_each ns notify.

(** The rows and the calls of the notifications [ns], the first of them
    at reading [tk] of the clock. *)
Fixpoint rows_written (clk : nat -> datetime) (tk : nat)
    (ns : list notification) : list (list sqlval) :=
  match ns with
  | [] => []
  | n :: ns' => row_of (isoformat (clk tk)) n :: rows_written clk (S tk) ns'
  end.

Fixpoint events_written (h : nat) (clk : nat -> datetime) (tk : nat)
    (ns : list notification) : list event :=
  match ns with
  | [] => []
  | n :: ns' =>
      write_events h (isoformat (clk tk)) n ++ events_written h clk (S tk) ns'
  end.

(** The base class after the notifications [ns], when none of its methods
    raised. *)
Fixpoint base_after (b : Base) (ns : list notification) : exn + Base :=
  match ns with
  | [] => inr b
  | n :: ns' =>
      match base_method n b (state_of n) with
      | inr b' => base_after b' ns'
      | inl e => inl e
      end
  end.

Definition append_rows (rows : list (list sqlval)) (d : database) : database :=
  <["test_journal" :=
      Table test_journal_columns (rows_of d "test_journal" ++ rows)]> d.

(** The path of the journal of a job. *)
Definition journal_file (logdir : string) : string :=
  os_path_join logdir JOURNAL_FILENAME.

(** A recorder that has not been initialised, about to see the
    notifications [n :: ns] of a job whose journal file can be opened. *)
Definition startable (s : Self) (w : World) (n : notification)
    (ns : list notification) (logdir uid : string) (b : Base) : Prop :=
  journal_initialized s = false
  /\ state_of n !! "job_logdir" = Some logdir
  /\ state_of n !! "job_unique_id" = Some uid
  /\ (journal_file logdir ∉ unopenable w)
  /\ well_shaped (committed w (journal_file logdir))
  /\ Forall accepted (n :: ns)
  /\ base_after (base s) (n :: ns) = inr b.

(** The file after the first [lazy_init_journal]. *)
Definition initial_db (uid : string) (d : database) : database :=
  record_job uid (ensureSchema d).

(** The file of a job after a run, in terms of the file before it. *)
Definition final_db (w : World) (n : notification) (ns : list notification)
    (logdir uid : string) : database :=
  append_rows (rows_written (clock w) (ticks w) (n :: ns))
    (initial_db uid (committed w (journal_file logdir))).

(** The column [name] of a row of [test_journal]. *)
Definition field (name : string) (row : list sqlval) : option sqlval :=
  i ← index_of name test_journal_columns; row !! i.

(** Where the status of a notification's row stands. *)
Definition status_placed (n : notification) (row : list sqlval) : Prop :=
  match n with
  | OnTestStart _ =>
      field "action" row = Some (SText "STARTED")
      /\ field "status" row = Some SNull
  | OnTestEnd st =>
      field "action" row = Some (SText "ENDED")
      /\ exists v, st !! "status" = Some v
                   /\ field "status" row = Some (SText v)
  end.

(** Is the event the opening of a connection? *)
Definition is_connect (e : event) : bool :=
  match e with EvConnect _ _ => true | _ => false end.

(** The two calls of the write path: the insert into [test_journal] and
    the commit, on connection [h]. *)
Definition is_write_event (h : nat) (e : event) : Prop :=
  match e with
  | EvExecute h' s _ => h' = h /\ s = insert_status
  | EvCommit h' => h' = h
  | _ => False
  end.

(** The events of the write path, on any connection. *)
Definition is_write (e : event) : Prop :=
  match e with
  | EvExecute _ s _ => s = insert_status
  | EvCommit _ => True
  | _ => False
  end.

(** The event is not the execution of an [UPDATE] or a [DELETE]. *)
Definition no_update_or_delete (e : event) : Prop :=
  match e with
  | EvExecute _ s _ => is_update_or_delete s = false
  | _ => True
  end.

(** The attributes that initialisation sets. *)
Definition journal_attrs (s : Self)
  : bool * option string * option nat * option nat :=
  (journal_initialized s, journal_path s, journal s, journal_cursor s).

(** [m] leaves those attributes as they are, whatever the object and the
    world it runs on, and whether it returns or raises. *)
Definition keeps_journal {A} (m : M A) : Prop :=
  forall c, journal_attrs (fst (snd (m c))) = journal_attrs (fst c).

(** [m] adds to the trace only events that satisfy [P], whatever the
    object and the world it runs on, and whether it returns or raises. *)
Definition logs_only {A} (P : event -> Prop) (m : M A) : Prop :=
  forall c, exists evs,
    trace (snd (snd (m c))) = trace (snd c) ++ evs /\ Forall P evs.

(** ** The statements, as the module writes them *)

Example SCHEMA_text :
  map (fun e => (fst e, sql_text (snd e))) SCHEMA
  = [("job_info", "CREATE TABLE job_info (unique_id TEXT UNIQUE)");
     ("test_journal",
      "CREATE TABLE test_journal (tag TEXT, time TEXT, action TEXT, status TEXT, flushed BOOLEAN DEFAULT 0)")].
Proof. reflexivity. Qed.

Example table_info_text :
  sql_text (PragmaTableInfo "job_info") = "PRAGMA table_info('job_info')".
Proof. reflexivity. Qed.

Example select_job_text :
  sql_text select_job = "SELECT unique_id FROM job_info".
Proof. reflexivity. Qed.

Example insert_job_text :
  sql_text insert_job = "INSERT INTO job_info (unique_id) VALUES (?)".
Proof. reflexivity. Qed.

Example insert_status_text :
  sql_text insert_status
  = "INSERT INTO test_journal (tag, time, action, status) VALUES (?, ?, ?, ?)".
Proof. reflexivity. Qed.

Example SCHEMA_columns :
  SCHEMA = [("job_info", CreateTable "job_info" job_info_columns);
            ("test_journal", CreateTable "test_journal" test_journal_columns)].
Proof. reflexivity. Qed.

(** ** The ISO format orders as time does *)

Lemma compare_app (s1 s2 t1 t2 : string) :
  String.length s1 = String.length s2 ->
  String.compare (s1 +:+ t1) (s2 +:+ t2)
  = then_compare (String.compare s1 s2) (String.compare t1 t2).
Proof.
  revert s2. induction s1 as [|c1 s1 IH]; intros [|c2 s2] Hlen;
    simpl in Hlen; try discriminate; [reflexivity|].
  simpl. destruct (Ascii.compare c1 c2); auto.
Qed.

Lemma length_append (s t : string) :
  String.length (s +:+ t) = String.length s + String.length t.
Proof. induction s as [|c s IH]; simpl; [reflexivity|]. now rewrite IH. Qed.

Lemma length_fixed_digits (w : nat) (n : N) : String.length (fixed_digits w n) = w.
Proof.
  revert n. induction w as [|w IH]; intros n; simpl; [reflexivity|].
  rewrite length_append, IH. simpl. lia.
Qed.

Lemma compare_digit (a b : N) :
  Ascii.compare (digit a) (digit b) = (a mod 10 ?= b mod 10)%N.
Proof.
  unfold Ascii.compare, digit.
  assert (Ha : (a mod 10 < 10)%N) by (apply N.mod_lt; lia).
  assert (Hb : (b mod 10 < 10)%N) by (apply N.mod_lt; lia).
  rewrite !N_ascii_embedding by lia.
  destruct (N.compare_spec (a mod 10) (b mod 10));
    [apply N.compare_eq_iff|apply N.compare_lt_iff|apply N.compare_gt_iff]; lia.
Qed.

Lemma compare_div_mod (a b : N) :
  then_compare (a / 10 ?= b / 10)%N (a mod 10 ?= b mod 10)%N = (a ?= b)%N.
Proof.
  pose proof (N.div_mod a 10 ltac:(lia)) as Ha.
  pose proof (N.div_mod b 10 ltac:(lia)) as Hb.
  pose proof (N.mod_lt a 10 ltac:(lia)) as Ha'.
  pose proof (N.mod_lt b 10 ltac:(lia)) as Hb'.
  revert Ha Hb Ha' Hb'.
  generalize (a / 10)%N (a mod 10)%N (b / 10)%N (b mod 10)%N.
  intros qa ra qb rb Ha Hb Ha' Hb'.
  destruct (N.compare_spec qa qb); cbn [then_compare];
    [destruct (N.compare_spec ra rb)| |]; symmetry;
    first [apply N.compare_eq_iff; lia | apply N.compare_lt_iff; lia
          | apply N.compare_gt_iff; lia].
Qed.

Lemma compare_fixed_digits (w : nat) (a b : N) :
  (a < 10 ^ N.of_nat w)%N -> (b < 10 ^ N.of_nat w)%N ->
  String.compare (fixed_digits w a) (fixed_digits w b) = (a ?= b)%N.
Proof.
  revert a b. induction w as [|w IH]; intros a b Ha Hb.
  - simpl in *. assert (a = 0%N) by lia. assert (b = 0%N) by lia.
    subst. reflexivity.
  - rewrite Nat2N.inj_succ, N.pow_succ_r' in Ha, Hb.
    cbn [fixed_digits].
    rewrite compare_app by (now rewrite !length_fixed_digits).
    rewrite IH by (apply N.Div0.div_lt_upper_bound; lia).
    cbn [String.compare]. rewrite compare_digit.
    rewrite <- (compare_div_mod a b).
    destruct (a / 10 ?= b / 10)%N; try reflexivity.
    cbn [then_compare]. now destruct (a mod 10 ?= b mod 10)%N.
Qed.

Lemma zero_pad_fixed (w : nat) (n : N) :
  (n < 10 ^ N.of_nat w)%N -> zero_pad w n = fixed_digits w n.
Proof. intros H. unfold zero_pad. apply N.ltb_lt in H. now rewrite H. Qed.

Lemma valid_datetime_bounds t :
  valid_datetime t = true ->
  (year t < 10 ^ N.of_nat 4 /\ month t < 10 ^ N.of_nat 2
   /\ day t < 10 ^ N.of_nat 2 /\ hour t < 10 ^ N.of_nat 2
   /\ minute t < 10 ^ N.of_nat 2 /\ second t < 10 ^ N.of_nat 2
   /\ microsecond t < 10 ^ N.of_nat 6)%N.
Proof.
  unfold valid_datetime, valid_date, days_in_month. intros H.
  repeat match goal with
         | H : _ && _ = true |- _ => apply andb_prop in H; destruct H
         | H : (_ <=? _)%N = true |- _ => apply N.leb_le in H
         | H : (_ <? _)%N = true |- _ => apply N.ltb_lt in H
         end.
  assert (day t <= 31)%N.
  { repeat match goal with
           | H : context [if ?c then _ else _] |- _ => destruct c
           end; lia. }
  change (10 ^ N.of_nat 4)%N with 10000%N.
  change (10 ^ N.of_nat 2)%N with 100%N.
  change (10 ^ N.of_nat 6)%N with 1000000%N.
  lia.
Qed.

Lemma compare_sep (c : ascii) (s t : string) :
  String.compare (String c "" +:+ s) (String c "" +:+ t) = String.compare s t.
Proof.
  change (String c "" +:+ s) with (String c s).
  change (String c "" +:+ t) with (String c t).
  cbn [String.compare].
  replace (Ascii.compare c c) with Eq; [reflexivity|].
  symmetry. unfold Ascii.compare. apply N.compare_refl.
Qed.

Lemma compare_fraction (a b : N) :
  (a < 10 ^ N.of_nat 6)%N -> (b < 10 ^ N.of_nat 6)%N ->
  String.compare
    (if (a =? 0)%N then "" else "." +:+ zero_pad 6 a)
    (if (b =? 0)%N then "" else "." +:+ zero_pad 6 b)
  = (a ?= b)%N.
Proof.
  intros Ha Hb.
  destruct (N.eqb_spec a 0) as [->|Na], (N.eqb_spec b 0) as [->|Nb].
  - reflexivity.
  - symmetry. apply N.compare_lt_iff. lia.
  - symmetry. apply N.compare_gt_iff. lia.
  - rewrite compare_sep, !zero_pad_fixed by assumption.
    now apply compare_fixed_digits.
Qed.

Lemma compare_zero_pad (w : nat) (a b : N) (s t : string) :
  (a < 10 ^ N.of_nat w)%N -> (b < 10 ^ N.of_nat w)%N ->
  String.compare (zero_pad w a +:+ s) (zero_pad w b +:+ t)
  = then_compare (a ?= b)%N (String.compare s t).
Proof.
  intros Ha Hb. rewrite !zero_pad_fixed by assumption.
  rewrite compare_app by (now rewrite !length_fixed_digits).
  now rewrite compare_fixed_digits.
Qed.

Theorem isoformat_compare (a b : datetime) :
  valid_datetime a = true -> valid_datetime b = true ->
  String.compare (isoformat a) (isoformat b) = datetime_compare a b.
Proof.
  intros Ha Hb.
  destruct (valid_datetime_bounds a Ha) as (?&?&?&?&?&?&?).
  destruct (valid_datetime_bounds b Hb) as (?&?&?&?&?&?&?).
  unfold isoformat, datetime_compare.
  repeat (rewrite compare_zero_pad by assumption; f_equal;
          rewrite ?compare_sep).
  now apply compare_fraction.
Qed.

(** ** One statement at a time *)

Lemma run_insert_status (d : database) rows a b c e :
  d !! "test_journal" = Some (Table test_journal_columns rows) ->
  run_stmt insert_status [a; b; c; e] d
  = inr (<["test_journal" := Table test_journal_columns (rows ++ [[a; b; c; e; SInt 0]])]> d, []).
Proof. intros H. unfold run_stmt, insert_status. rewrite H. reflexivity. Qed.

Lemma run_insert_job_info (d : database) u :
  d !! "job_info" = Some (Table job_info_columns []) ->
  run_stmt (InsertInto "job_info" ["unique_id"]) [SText u] d
  = inr (<["job_info" := Table job_info_columns [[SText u]]]> d, []).
Proof. intros H. unfold run_stmt. rewrite H. reflexivity. Qed.

Lemma run_select_job (d : database) rows :
  d !! "job_info" = Some (Table job_info_columns rows) ->
  run_stmt select_job [] d
  = inr (d, map (fun r => [default SNull (r !! 0)]) rows).
Proof. intros H. unfold run_stmt, select_job. rewrite H. reflexivity. Qed.

Lemma ensureSchema_tables (d : database) :
  well_shaped d ->
  ensureSchema d !! "job_info"
  = Some (Table job_info_columns (rows_of d "job_info"))
  /\ ensureSchema d !! "test_journal"
     = Some (Table test_journal_columns (rows_of d "test_journal")).
Proof.
  intros [H1 H2]. unfold ensureSchema, ensure_table, rows_of.
  cbn [fold_left SCHEMA fst snd].
  destruct (d !! "job_info") as [[c1 r1]|] eqn:E1.
  - specialize (H1 _ eq_refl). cbn in H1. subst c1.
    destruct (d !! "test_journal") as [[c2 r2]|] eqn:E2.
    + specialize (H2 _ eq_refl). cbn in H2. subst c2.
      rewrite E1, E2. split; reflexivity.
    + rewrite lookup_insert_ne by discriminate.
      rewrite lookup_insert_eq, E1. split; reflexivity.
  - rewrite (lookup_insert_ne _ "job_info" "test_journal") by discriminate.
    destruct (d !! "test_journal") as [[c2 r2]|] eqn:E2.
    + specialize (H2 _ eq_refl). cbn in H2. subst c2.
      rewrite lookup_insert_eq, lookup_insert_ne, E2 by discriminate.
      split; reflexivity.
    + rewrite lookup_insert_ne, !lookup_insert_eq by discriminate.
      split; reflexivity.
Qed.

Lemma bind_eq {A B} (m : M A) (k : A -> M B) c :
  (m ≫= k) c = match m c with
               | (Return a, c') => k a c'
               | (Raise e, c') => (Raise e, c')
               end.
Proof. reflexivity. Qed.

Ltac wsimpl :=
  unfold view, committed, flush, log, set_files, set_conns, set_ticks, set_txn;
  cbn [fst snd files unopenable conns clock ticks trace conn_path conn_closed
       conn_txn default from_option id].

Lemma getattr_run {A} name (field : Self -> option A) s w a :
  field s = Some a -> getattr name field (s, w) = (Return a, (s, w)).
Proof. intros H. unfold getattr. cbn [fst]. now rewrite H. Qed.

Lemma getitem_run state k v (c : Self * World) :
  state !! k = Some v -> getitem state k c = (Return v, c).
Proof. intros H. unfold getitem. now rewrite H. Qed.

Lemma execute_dml s fs un cs clk tk tr h p d d' stm params rows :
  cs !! h = Some (Connection p false None) ->
  fs !! p = Some d ->
  kind_of stm = KindDML ->
  run_stmt stm params d = inr (d', rows) ->
  cursor_execute h stm params (s, mkWorld fs un cs clk tk tr)
  = (Return rows,
     (s, mkWorld fs un (<[h := Connection p false (Some d')]> cs) clk tk
           (tr ++ [EvExecute h stm params]))).
Proof.
  intros Hcn Hf Hk Hrun. unfold cursor_execute, on_open, execute_on.
  wsimpl. rewrite Hcn. wsimpl. rewrite Hk. wsimpl. rewrite Hf. wsimpl.
  rewrite Hrun. reflexivity.
Qed.

Lemma execute_query s fs un cs clk tk tr h p d d' stm params rows :
  cs !! h = Some (Connection p false None) ->
  fs !! p = Some d ->
  kind_of stm = KindQuery ->
  run_stmt stm params d = inr (d', rows) ->
  cursor_execute h stm params (s, mkWorld fs un cs clk tk tr)
  = (Return rows,
     (s, mkWorld fs un cs clk tk (tr ++ [EvExecute h stm params]))).
Proof.
  intros Hcn Hf Hk Hrun. unfold cursor_execute, on_open, execute_on.
  wsimpl. rewrite Hcn. wsimpl. rewrite Hk. wsimpl. rewrite Hf. wsimpl.
  rewrite Hrun. reflexivity.
Qed.

Lemma execute_other s fs un cs clk tk tr h p d d' stm params rows :
  cs !! h = Some (Connection p false None) ->
  fs !! p = Some d ->
  kind_of stm = KindOther ->
  run_stmt stm params d = inr (d', rows) ->
  cursor_execute h stm params (s, mkWorld fs un cs clk tk tr)
  = (Return rows,
     (s, mkWorld (<[p := d']> fs) un cs clk tk
           (tr ++ [EvExecute h stm params]))).
Proof.
  intros Hcn Hf Hk Hrun. unfold cursor_execute, on_open, execute_on.
  wsimpl. rewrite Hcn. wsimpl. rewrite Hk. wsimpl. rewrite Hf. wsimpl.
  rewrite Hrun. reflexivity.
Qed.

Lemma commit_txn s fs un cs clk tk tr h p d :
  cs !! h = Some (Connection p false (Some d)) ->
  connection_commit h (s, mkWorld fs un cs clk tk tr)
  = (Return tt,
     (s, mkWorld (<[p := d]> fs) un (<[h := Connection p false None]> cs)
           clk tk (tr ++ [EvCommit h]))).
Proof.
  intros Hcn. unfold connection_commit, on_open.
  wsimpl. rewrite Hcn. reflexivity.
Qed.

Lemma commit_idle s fs un cs clk tk tr h p :
  cs !! h = Some (Connection p false None) ->
  connection_commit h (s, mkWorld fs un cs clk tk tr)
  = (Return tt, (s, mkWorld fs un cs clk tk (tr ++ [EvCommit h]))).
Proof.
  intros Hcn. unfold connection_commit, on_open.
  wsimpl. rewrite Hcn. reflexivity.
Qed.

Lemma insert_then_restore (cs : list connection) h cn cn' :
  cs !! h = Some cn -> <[h := cn]> (<[h := cn']> cs) = cs.
Proof. intros H. rewrite list_insert_insert_eq. now apply list_insert_id. Qed.

Lemma lookup_after_insert (cs : list connection) h cn cn' :
  cs !! h = Some cn -> <[h := cn']> cs !! h = Some cn'.
Proof. intros H. apply list_lookup_insert_eq. eapply lookup_lt_Some, H. Qed.

Lemma epoch_run (c : Self * World) :
  lift_exn (datetime_datetime 1 1 1) c = (Return (Datetime 1 1 1 0 0 0 0), c).
Proof. reflexivity. Qed.

Lemma now_run through s fs un cs clk tk tr :
  datetime_now through (s, mkWorld fs un cs clk tk tr)
  = (Return (clk tk), (s, mkWorld fs un cs clk (S tk) tr)).
Proof. reflexivity. Qed.

Lemma record_status_run s w state action h p d rows tag st :
  journal s = Some h -> journal_cursor s = Some h ->
  conns w !! h = Some (Connection p false None) ->
  files w !! p = Some d ->
  d !! "test_journal" = Some (Table test_journal_columns rows) ->
  state !! "tagged_name" = Some tag ->
  status_value state action = Some st ->
  _record_status state action (s, w)
  = (Return tt,
     (s, mkWorld
           (<[p := <["test_journal" :=
                      Table test_journal_columns
                        (rows ++ [[SText tag; SText (isoformat (clock w (ticks w)));
                                   SText action; st; SInt 0]])]> d]> (files w))
           (unopenable w) (conns w) (clock w) (S (ticks w))
           (trace w ++ [EvExecute h insert_status
                          [SText tag; SText (isoformat (clock w (ticks w)));
                           SText action; st];
                        EvCommit h]))).
Proof.
  intros Hj Hc Hcn Hf Ht Htag Hst.
  destruct w as [fs un cs clk tk tr]. cbn [files unopenable conns clock ticks trace] in *.
  unfold _record_status.
  assert (Hstatus : forall c : Self * World,
            (if String.eqb action "ENDED"
             then getitem state "status" ≫= λ v : string, mret (SText v)
             else mret SNull) c = (Return st, c)).
  { intros c. unfold status_value in Hst. destruct (String.eqb action "ENDED").
    - destruct (state !! "status") as [v|] eqn:Hv; [|discriminate].
      injection Hst as <-. rewrite bind_eq, (getitem_run _ _ v) by assumption.
      reflexivity.
    - injection Hst as <-. reflexivity. }
  rewrite bind_eq, Hstatus.
  rewrite bind_eq, (getattr_run _ _ _ _ h) by assumption.
  rewrite bind_eq, (getitem_run _ _ tag) by assumption.
  rewrite bind_eq, epoch_run.
  rewrite bind_eq, now_run.
  rewrite bind_eq.
  erewrite execute_dml; [|eassumption|eassumption|reflexivity|].
  2:{ apply run_insert_status. eassumption. }
  rewrite bind_eq, (getattr_run _ _ _ _ h) by assumption.
  erewrite commit_txn by (eapply lookup_after_insert; eassumption).
  erewrite insert_then_restore by eassumption.
  rewrite <- app_assoc. reflexivity.
Qed.

Lemma init_journal_table_run s fs un cs clk tk tr h p d t cols :
  journal_cursor s = Some h ->
  cs !! h = Some (Connection p false None) ->
  fs !! p = Some d ->
  dict_get SCHEMA t = Some (CreateTable t cols) ->
  (forall tb, d !! t = Some tb -> tbl_columns tb <> []) ->
  _init_journal_table t (s, mkWorld fs un cs clk tk tr)
  = (Return tt,
     (s, mkWorld (<[p := ensure_table d (t, CreateTable t cols)]> fs)
           un cs clk tk
           (tr ++ ensure_events h d (t, CreateTable t cols)))).
Proof.
  intros Hc Hcn Hf Hddl Hshape.
  unfold _init_journal_table, ensure_table, ensure_events.
  cbn [fst snd].
  rewrite bind_eq, (getattr_run _ _ _ _ h) by assumption.
  rewrite bind_eq.
  destruct (d !! t) as [tb|] eqn:Ht.
  - erewrite execute_other; [|eassumption|eassumption|reflexivity|].
    2:{ unfold run_stmt. rewrite Ht. reflexivity. }
    specialize (Hshape tb eq_refl). unfold table_info.
    destruct (tbl_columns tb); [congruence|reflexivity].
  - erewrite execute_other; [|eassumption|eassumption|reflexivity|].
    2:{ unfold run_stmt. rewrite Ht. reflexivity. }
    cbn [fetchone head].
    rewrite bind_eq, (getattr_run _ _ _ _ h) by assumption.
    rewrite bind_eq, Hddl. cbv beta iota.
    unfold mret at 1, M_ret at 1. cbv beta iota.
    rewrite bind_eq.
    erewrite execute_other;
      [|eassumption|apply lookup_insert_eq|reflexivity|].
    2:{ unfold run_stmt. rewrite Ht. reflexivity. }
    rewrite insert_insert_eq, <- app_assoc. reflexivity.
Qed.

Lemma setattr_run (f : Self -> Self) s w :
  setattr f (s, w) = (Return tt, (f s, w)).
Proof. reflexivity. Qed.

Lemma connect_run s fs un cs clk tk tr p :
  p ∉ un ->
  sqlite3_connect p (s, mkWorld fs un cs clk tk tr)
  = (Return (length cs),
     (s, mkWorld (<[p := default ∅ (fs !! p)]> fs) un
           (cs ++ [Connection p false None]) clk tk
           (tr ++ [EvConnect p (length cs)]))).
Proof.
  intros Hp. unfold sqlite3_connect. wsimpl.
  rewrite bool_decide_eq_false_2 by assumption. reflexivity.
Qed.

Lemma cursor_run s w h p t :
  conns w !! h = Some (Connection p false t) ->
  connection_cursor h (s, w) = (Return h, (s, w)).
Proof.
  intros H. unfold connection_cursor, on_open. wsimpl. rewrite H. reflexivity.
Qed.

Lemma well_shaped_catalog d : well_shaped d -> catalog_ok d.
Proof.
  intros [H1 H2] t tb [<-|[<-|[]]] Ht.
  - now rewrite (H1 _ Ht).
  - now rewrite (H2 _ Ht).
Qed.

Lemma catalog_ok_ensure d e :
  In e SCHEMA -> catalog_ok d -> catalog_ok (ensure_table d e).
Proof.
  intros He Hd. unfold ensure_table.
  destruct He as [<-|[<-|[]]]; cbn [fst snd];
    match goal with |- catalog_ok (match ?x with _ => _ end) =>
      case_eq x; [intros t Hx|intros Hx] end; try assumption;
    intros t tb Hin Htb;
    match type of Htb with
    | <[?k := _]> _ !! _ = _ =>
        destruct (decide (k = t)) as [<-|Hne];
        [rewrite lookup_insert_eq in Htb; now injection Htb as <-
        |rewrite lookup_insert_ne in Htb by assumption; eauto]
    end.
Qed.

Lemma init_journal_run s w logdir :
  let p := os_path_join logdir JOURNAL_FILENAME in
  let h := length (conns w) in
  let d := committed w p in
  p ∉ unopenable w ->
  catalog_ok d ->
  _init_journal logdir (s, w)
  = (Return tt,
     (opened p h s,
      mkWorld (<[p := ensureSchema d]> (files w)) (unopenable w)
        (conns w ++ [Connection p false None]) (clock w) (ticks w)
        (trace w ++ [EvConnect p h] ++ schema_events h d SCHEMA
                 ++ [EvCommit h]))).
Proof.
  intros p h d Hp Hd. subst h d. unfold committed in *.
  destruct w as [fs un cs clk tk tr]. wsimpl. cbn [files unopenable] in *.
  set (d := default ∅ (fs !! p)) in *.
  unfold _init_journal. fold p.
  assert (Hh : (cs ++ [Connection p false None]) !! length cs
               = Some (Connection p false None)).
  { apply list_lookup_middle. reflexivity. }
  rewrite bind_eq, setattr_run.
  rewrite bind_eq, (getattr_run _ _ _ _ p) by reflexivity.
  rewrite bind_eq, connect_run by assumption.
  rewrite bind_eq, setattr_run.
  rewrite bind_eq, (getattr_run _ _ _ _ (length cs)) by reflexivity.
  rewrite bind_eq. erewrite cursor_run by (wsimpl; eassumption).
  rewrite bind_eq, setattr_run.
  rewrite bind_eq. cbn [dict_keys SCHEMA map fst for_each].
  rewrite bind_eq.
  erewrite init_journal_table_run;
    [|reflexivity|eassumption|apply lookup_insert_eq|reflexivity|].
  2:{ intros tb. apply Hd. left; reflexivity. }
  rewrite bind_eq.
  erewrite init_journal_table_run;
    [|reflexivity|eassumption|apply lookup_insert_eq|reflexivity|].
  2:{ intros tb.
      eapply (catalog_ok_ensure d (_, _)); [left; reflexivity|exact Hd|].
      right; left; reflexivity. }
  unfold mret at 1, M_ret at 1. cbv beta iota.
  rewrite bind_eq, (getattr_run _ _ _ _ (length cs)) by reflexivity.
  erewrite commit_idle by eassumption.
  rewrite !insert_insert_eq.
  unfold ensureSchema, opened. cbn [fold_left schema_events SCHEMA].
  repeat rewrite <- app_assoc. reflexivity.
Qed.

Lemma record_job_info_run s fs un cs clk tk tr state h p d uid :
  journal s = Some h -> journal_cursor s = Some h ->
  cs !! h = Some (Connection p false None) ->
  fs !! p = Some d ->
  d !! "job_info" = Some (Table job_info_columns (rows_of d "job_info")) ->
  state !! "job_unique_id" = Some uid ->
  _record_job_info state (s, mkWorld fs un cs clk tk tr)
  = (Return tt,
     (s, mkWorld (<[p := record_job uid d]> fs) un cs clk tk
           (tr ++ job_events h uid d))).
Proof.
  intros Hj Hc Hcn Hf Ht Hu. unfold _record_job_info, record_job, job_events.
  rewrite bind_eq, (getattr_run _ _ _ _ h) by assumption.
  rewrite bind_eq.
  erewrite execute_query; [|eassumption|eassumption|reflexivity|].
  2:{ apply run_select_job. eassumption. }
  destruct (rows_of d "job_info") as [|r rs].
  - cbn [map fetchone head].
    rewrite bind_eq, (getattr_run _ _ _ _ h) by assumption.
    rewrite bind_eq, (getitem_run _ _ uid) by assumption.
    rewrite bind_eq.
    erewrite execute_dml; [|eassumption|eassumption|reflexivity|].
    2:{ apply run_insert_job_info. eassumption. }
    rewrite bind_eq, (getattr_run _ _ _ _ h) by assumption.
    erewrite commit_txn by (eapply lookup_after_insert; eassumption).
    erewrite insert_then_restore by eassumption.
    repeat rewrite <- app_assoc. reflexivity.
  - cbn [map fetchone head]. rewrite insert_id by assumption. reflexivity.
Qed.

Lemma rows_of_ensureSchema d t :
  well_shaped d -> rows_of (ensureSchema d) t = rows_of d t.
Proof.
  intros Hd. destruct (ensureSchema_tables d Hd) as [H1 H2].
  unfold rows_of at 1.
  destruct (decide (t = "job_info")) as [->|N1]; [now rewrite H1|].
  destruct (decide (t = "test_journal")) as [->|N2]; [now rewrite H2|].
  unfold rows_of, ensureSchema, ensure_table. cbn [fold_left SCHEMA fst snd].
  repeat match goal with
         | |- context [match ?x with Some _ => _ | None => _ end] =>
             destruct x
         end;
    rewrite ?lookup_insert_ne by congruence; reflexivity.
Qed.

Lemma lazy_init_fresh s w state logdir uid :
  let p := os_path_join logdir JOURNAL_FILENAME in
  let h := length (conns w) in
  let d := committed w p in
  journal_initialized s = false ->
  state !! "job_logdir" = Some logdir ->
  state !! "job_unique_id" = Some uid ->
  p ∉ unopenable w ->
  well_shaped d ->
  lazy_init_journal state (s, w)
  = (Return tt,
     (activated p h s,
      mkWorld (<[p := record_job uid (ensureSchema d)]> (files w))
        (unopenable w) (conns w ++ [Connection p false None]) (clock w)
        (ticks w) (trace w ++ init_events p h uid d))).
Proof.
  intros p h d Hflag Hdir Hu Hp Hd.
  unfold lazy_init_journal. cbn [fst]. rewrite Hflag. cbn [negb].
  rewrite bind_eq, (getitem_run _ _ logdir) by assumption.
  rewrite bind_eq, init_journal_run
    by (try apply well_shaped_catalog; assumption).
  fold p h d.
  destruct (ensureSchema_tables d Hd) as [Hji _].
  rewrite bind_eq.
  erewrite record_job_info_run;
    [|reflexivity|reflexivity|apply list_lookup_middle; reflexivity
     |apply lookup_insert_eq| |eassumption].
  2:{ rewrite rows_of_ensureSchema by assumption. exact Hji. }
  rewrite setattr_run, insert_insert_eq.
  unfold init_events, activated, opened, set_journal_initialized.
  cbn [base journal_path journal journal_cursor].
  repeat rewrite <- app_assoc. reflexivity.
Qed.

Lemma lazy_init_active s w state :
  journal_initialized s = true ->
  lazy_init_journal state (s, w) = (Return tt, (s, w)).
Proof.
  intros H. unfold lazy_init_journal. cbn [fst]. now rewrite H.
Qed.

(** *** Notifications *)

Lemma call_base_run method state s w b :
  method (base s) state = inr b ->
  call_base method state (s, w) = (Return tt, (set_base b s, w)).
Proof. intros H. unfold call_base. cbn [fst snd]. now rewrite H. Qed.

Lemma notify_unfold n :
  notify n
  = (lazy_init_journal (state_of n) ;;
     call_base (base_method n) (state_of n) ;;
     _record_status (state_of n) (action_of n)).
Proof. destruct n; reflexivity. Qed.

Lemma record_status_of s w n h p d :
  journal s = Some h -> journal_cursor s = Some h ->
  conns w !! h = Some (Connection p false None) ->
  files w !! p = Some d -> ready d -> accepted n ->
  let time := isoformat (clock w (ticks w)) in
  _record_status (state_of n) (action_of n) (s, w)
  = (Return tt,
     (s, mkWorld (<[p := append_row (row_of time n) d]> (files w))
           (unopenable w) (conns w) (clock w) (S (ticks w))
           (trace w ++ write_events h time n))).
Proof.
  intros Hj Hc Hcn Hf [_ Hd] [[tag Htag] [st Hst]] time.
  erewrite record_status_run by eassumption.
  unfold append_row, row_of, write_events, params_of.
  rewrite Htag, Hst. reflexivity.
Qed.

Lemma notify_active s w p h n b :
  active s w p h -> accepted n ->
  base_method n (base s) (state_of n) = inr b ->
  let time := isoformat (clock w (ticks w)) in
  notify n (s, w)
  = (Return tt,
     (set_base b s,
      mkWorld (<[p := append_row (row_of time n) (committed w p)]> (files w))
        (unopenable w) (conns w) (clock w) (S (ticks w))
        (trace w ++ write_events h time n))).
Proof.
  intros (Hflag & Hp & Hj & Hc & Hcn & d & Hf & Hd) Hn Hb time.
  rewrite notify_unfold.
  rewrite bind_eq, lazy_init_active by assumption.
  rewrite bind_eq, (call_base_run _ _ _ _ b) by assumption.
  erewrite record_status_of; try eassumption.
  unfold committed. rewrite Hf. reflexivity.
Qed.

Lemma ready_record_job uid d : ready d -> ready (record_job uid d).
Proof.
  intros [H1 H2]. unfold record_job.
  destruct (rows_of d "job_info") eqn:E; [|split; congruence].
  unfold ready, rows_of.
  rewrite lookup_insert_eq, lookup_insert_ne by discriminate.
  split; [reflexivity|exact H2].
Qed.

Lemma ready_ensureSchema d : well_shaped d -> ready (ensureSchema d).
Proof.
  intros Hd. destruct (ensureSchema_tables d Hd) as [H1 H2].
  unfold ready. now rewrite !rows_of_ensureSchema.
Qed.

Lemma ready_append_row row d : ready d -> ready (append_row row d).
Proof.
  intros [H1 H2]. unfold ready, append_row, rows_of.
  rewrite lookup_insert_eq, lookup_insert_ne by discriminate.
  split; [exact H1|reflexivity].
Qed.

Lemma notify_fresh s w n logdir uid b :
  let p := os_path_join logdir JOURNAL_FILENAME in
  let h := length (conns w) in
  let d := committed w p in
  let time := isoformat (clock w (ticks w)) in
  journal_initialized s = false ->
  state_of n !! "job_logdir" = Some logdir ->
  state_of n !! "job_unique_id" = Some uid ->
  p ∉ unopenable w ->
  well_shaped d ->
  accepted n ->
  base_method n (base s) (state_of n) = inr b ->
  notify n (s, w)
  = (Return tt,
     (set_base b (activated p h s),
      mkWorld
        (<[p := append_row (row_of time n) (record_job uid (ensureSchema d))]>
           (files w))
        (unopenable w) (conns w ++ [Connection p false None]) (clock w)
        (S (ticks w))
        (trace w ++ init_events p h uid d ++ write_events h time n))).
Proof.
  intros p h d time Hflag Hdir Hu Hp Hd Hn Hb.
  rewrite notify_unfold.
  rewrite bind_eq, (lazy_init_fresh _ _ _ logdir uid) by assumption.
  fold p h d.
  rewrite bind_eq, (call_base_run _ _ _ _ b) by assumption.
  erewrite record_status_of;
    [|reflexivity|reflexivity|apply list_lookup_middle; reflexivity
     |apply lookup_insert_eq
     |apply ready_record_job, ready_ensureSchema; assumption|assumption].
  cbn [files unopenable conns clock ticks trace].
  rewrite insert_insert_eq, <- app_assoc. reflexivity.
Qed.

(** *** Runs of notifications *)

Lemma append_rows_nil d : ready d -> append_rows [] d = d.
Proof.
  intros [_ H]. unfold append_rows. rewrite app_nil_r. now apply insert_id.
Qed.

Lemma append_rows_cons r rs d :
  append_rows rs (append_row r d) = append_rows (r :: rs) d.
Proof.
  unfold append_rows, append_row. unfold rows_of at 1.
  rewrite lookup_insert_eq, insert_insert_eq. cbn [fmap option_fmap option_map default from_option id tbl_rows].
  now rewrite <- app_assoc.
Qed.

Lemma set_base_same (s : Self) : set_base (base s) s = s.
Proof. now destruct s. Qed.

Lemma active_step s w p h b fs tk tr row :
  active s w p h ->
  fs = <[p := append_row row (committed w p)]> (files w) ->
  active (set_base b s) (mkWorld fs (unopenable w) (conns w) (clock w) tk tr)
    p h.
Proof.
  intros (Hflag & Hp & Hj & Hc & Hcn & d & Hf & Hd) ->.
  repeat split; try assumption.
  exists (append_row row d). unfold committed. rewrite Hf.
  split; [apply lookup_insert_eq|now apply ready_append_row].
Qed.

Lemma run_active ns : forall s w p h b,
  active s w p h -> Forall accepted ns ->
  base_after (base s) ns = inr b ->
  run ns (s, w)
  = (Return tt,
     (set_base b s,
      mkWorld
        (<[p := append_rows (rows_written (clock w) (ticks w) ns)
                  (committed w p)]> (files w))
        (unopenable w) (conns w) (clock w) (ticks w + length ns)
        (trace w ++ events_written h (clock w) (ticks w) ns))).
Proof.
  induction ns as [|n ns IH]; intros s w p h b Hact Hns Hb.
  - cbn in Hb. injection Hb as <-.
    destruct Hact as (_ & _ & _ & _ & _ & d & Hf & Hd).
    cbn [run for_each rows_written events_written length].
    unfold committed. rewrite Hf. cbn [default from_option id].
    rewrite append_rows_nil, (insert_id _ _ _ Hf) by assumption.
    rewrite set_base_same, Nat.add_0_r, app_nil_r. now destruct w.
  - inversion Hns as [|? ? Hn Hns']; subst.
    cbn [base_after] in Hb.
    destruct (base_method n (base s) (state_of n)) as [e|b1] eqn:Hb1;
      [discriminate|].
    cbn [run for_each]. rewrite bind_eq.
    rewrite (notify_active s w p h n b1) by assumption.
    pose proof (active_step s w p h b1 _ (S (ticks w))
                  (trace w ++ write_events h (isoformat (clock w (ticks w))) n)
                  (row_of (isoformat (clock w (ticks w))) n) Hact eq_refl)
      as Hact1.
    specialize (IH _ _ p h b Hact1 Hns' Hb). unfold run in IH. rewrite IH.
    unfold committed.
    cbn [files unopenable conns clock ticks trace base set_base
         rows_written events_written length].
    rewrite lookup_insert_eq, insert_insert_eq.
    cbn [default from_option id].
    rewrite append_rows_cons, <- app_assoc, Nat.add_succ_r.
    reflexivity.
Qed.

Lemma run_fresh s w n ns logdir uid b :
  startable s w n ns logdir uid b ->
  let p := journal_file logdir in
  let h := length (conns w) in
  let d := committed w p in
  run (n :: ns) (s, w)
  = (Return tt,
     (set_base b (activated p h s),
      mkWorld
        (<[p := append_rows (rows_written (clock w) (ticks w) (n :: ns))
                  (initial_db uid d)]> (files w))
        (unopenable w) (conns w ++ [Connection p false None]) (clock w)
        (ticks w + length (n :: ns))
        (trace w ++ init_events p h uid d
                 ++ events_written h (clock w) (ticks w) (n :: ns)))).
Proof.
  intros (Hflag & Hdir & Hu & Hp & Hd & Hns & Hb) p h d.
  inversion Hns as [|? ? Hn Hns']; subst.
  cbn [base_after] in Hb.
  destruct (base_method n (base s) (state_of n)) as [e|b1] eqn:Hb1;
    [discriminate|].
  cbn [run for_each]. rewrite bind_eq.
  rewrite (notify_fresh s w n logdir uid b1) by assumption.
  fold (journal_file logdir). fold p h d.
  set (time := isoformat (clock w (ticks w))).
  set (d1 := append_row (row_of time n) (record_job uid (ensureSchema d))).
  assert (Hd1 : ready d1).
  { apply ready_append_row, ready_record_job, ready_ensureSchema, Hd. }
  match goal with
  | |- for_each ns notify (?s1, ?w1) = _ =>
      assert (Hact : active s1 w1 p h)
  end.
  { repeat split; try reflexivity.
    - apply list_lookup_middle. reflexivity.
    - exists d1. split; [apply lookup_insert_eq|exact Hd1]. }
  pose proof (run_active ns _ _ p h b Hact Hns' Hb) as Hrun.
  unfold run in Hrun. rewrite Hrun. unfold committed.
  cbn [files unopenable conns clock ticks trace base set_base activated
       rows_written events_written length journal_initialized journal_path
       journal journal_cursor].
  rewrite lookup_insert_eq, insert_insert_eq.
  cbn [default from_option id]. subst d1.
  rewrite append_rows_cons, <- !app_assoc, Nat.add_succ_r.
  reflexivity.
Qed.

(** *** What a whole run leaves behind *)

Lemma rows_of_append_rows rs d :
  rows_of (append_rows rs d) "test_journal" = rows_of d "test_journal" ++ rs.
Proof. unfold append_rows. unfold rows_of at 1. now rewrite lookup_insert_eq. Qed.

Lemma rows_of_append_rows_ne rs d t :
  t <> "test_journal" -> rows_of (append_rows rs d) t = rows_of d t.
Proof.
  intros H. unfold append_rows, rows_of. now rewrite lookup_insert_ne.
Qed.

Lemma rows_of_record_job uid d :
  rows_of (record_job uid d) "job_info"
  = match rows_of d "job_info" with
    | [] => [[SText uid]]
    | rows => rows
    end.
Proof.
  unfold record_job. destruct (rows_of d "job_info") eqn:E; [|exact E].
  unfold rows_of. now rewrite lookup_insert_eq.
Qed.

Lemma rows_of_record_job_ne uid d t :
  t <> "job_info" -> rows_of (record_job uid d) t = rows_of d t.
Proof.
  intros H. unfold record_job. destruct (rows_of d "job_info"); [|reflexivity].
  unfold rows_of. now rewrite lookup_insert_ne.
Qed.

Lemma ready_well_shaped d : ready d -> well_shaped d.
Proof.
  intros [H1 H2]. split; intros tb Htb.
  - rewrite H1 in Htb. now injection Htb as <-.
  - rewrite H2 in Htb. now injection Htb as <-.
Qed.

Lemma ready_append_rows rs d : ready d -> ready (append_rows rs d).
Proof.
  intros [H1 H2]. unfold ready, append_rows, rows_of.
  rewrite lookup_insert_eq, lookup_insert_ne by discriminate.
  split; [exact H1|reflexivity].
Qed.

Lemma ready_initial_db uid d : well_shaped d -> ready (initial_db uid d).
Proof. intros H. now apply ready_record_job, ready_ensureSchema. Qed.

Lemma final_db_journal w n ns logdir uid :
  well_shaped (committed w (journal_file logdir)) ->
  rows_of (final_db w n ns logdir uid) "test_journal"
  = rows_of (committed w (journal_file logdir)) "test_journal"
    ++ rows_written (clock w) (ticks w) (n :: ns).
Proof.
  intros Hd. unfold final_db, initial_db.
  rewrite rows_of_append_rows, rows_of_record_job_ne by discriminate.
  now rewrite rows_of_ensureSchema.
Qed.

Lemma final_db_job_info w n ns logdir uid :
  well_shaped (committed w (journal_file logdir)) ->
  rows_of (final_db w n ns logdir uid) "job_info"
  = match rows_of (committed w (journal_file logdir)) "job_info" with
    | [] => [[SText uid]]
    | rows => rows
    end.
Proof.
  intros Hd. unfold final_db, initial_db.
  rewrite rows_of_append_rows_ne, rows_of_record_job by discriminate.
  now rewrite rows_of_ensureSchema.
Qed.

Lemma final_db_other w n ns logdir uid t :
  well_shaped (committed w (journal_file logdir)) ->
  t <> "test_journal" -> t <> "job_info" ->
  rows_of (final_db w n ns logdir uid) t
  = rows_of (committed w (journal_file logdir)) t.
Proof.
  intros Hd H1 H2. unfold final_db, initial_db.
  rewrite rows_of_append_rows_ne, rows_of_record_job_ne by assumption.
  now rewrite rows_of_ensureSchema.
Qed.

Lemma run_fresh_committed s w n ns logdir uid b s' w' :
  startable s w n ns logdir uid b ->
  run (n :: ns) (s, w) = (Return tt, (s', w')) ->
  committed w' (journal_file logdir) = final_db w n ns logdir uid
  /\ conns w' = conns w ++ [Connection (journal_file logdir) false None]
  /\ trace w'
     = trace w
       ++ init_events (journal_file logdir) (length (conns w)) uid
            (committed w (journal_file logdir))
       ++ events_written (length (conns w)) (clock w) (ticks w) (n :: ns)
  /\ s' = set_base b (activated (journal_file logdir) (length (conns w)) s)
  /\ unopenable w' = unopenable w /\ clock w' = clock w
  /\ ticks w' = ticks w + length (n :: ns)
  /\ files w' !! journal_file logdir = Some (final_db w n ns logdir uid)
  /\ forall q, q <> journal_file logdir -> files w' !! q = files w !! q.
Proof.
  intros Hst Hrun. rewrite (run_fresh _ _ _ _ _ _ _ Hst) in Hrun.
  injection Hrun as <- <-. unfold committed at 1, final_db.
  cbn [files conns trace unopenable clock ticks].
  rewrite lookup_insert_eq. repeat split; try reflexivity.
  intros q Hq. now rewrite lookup_insert_ne.
Qed.

Lemma run_fresh_returns s w n ns logdir uid b :
  startable s w n ns logdir uid b ->
  exists s' w', run (n :: ns) (s, w) = (Return tt, (s', w')).
Proof. intros Hst. rewrite (run_fresh _ _ _ _ _ _ _ Hst). eauto. Qed.

(** *** The claims about a single call *)

Lemma active_file s w p h :
  active s w p h ->
  exists d, files w !! p = Some d /\ committed w p = d /\ ready d.
Proof.
  intros (_ & _ & _ & _ & _ & d & Hf & Hd). exists d.
  unfold committed. rewrite Hf. auto.
Qed.

(** C1. Every call of [_record_status] on an active recorder returns
    having executed exactly one [INSERT] into [test_journal] followed by a
    commit on the same connection: the committed file holds exactly one
    more row, and no transaction is left open (nothing is batched or
    deferred). *)
Theorem record_status_commits s w p h state action :
  active s w p h ->
  is_Some (state !! "tagged_name") ->
  is_Some (status_value state action) ->
  exists w' row params,
    _record_status state action (s, w) = (Return tt, (s, w'))
    /\ trace w' = trace w ++ [EvExecute h insert_status params; EvCommit h]
    /\ rows_of (committed w' p) "test_journal"
       = rows_of (committed w p) "test_journal" ++ [row]
    /\ rows_of (committed w' p) "job_info" = rows_of (committed w p) "job_info"
    /\ conns w' !! h = Some (Connection p false None).
Proof.
  intros Hact [tag Htag] [st Hst].
  destruct (active_file _ _ _ _ Hact) as (d & Hf & Hcm & [Hji Htj]).
  destruct Hact as (_ & _ & Hj & Hc & Hcn & _).
  erewrite record_status_run by eassumption.
  do 3 eexists. split; [reflexivity|].
  unfold committed at 1 3. cbn [files trace conns].
  rewrite lookup_insert_eq, Hcm. cbn [default from_option id].
  repeat split.
  - unfold rows_of at 1. now rewrite lookup_insert_eq.
  - unfold rows_of. now rewrite lookup_insert_ne.
  - exact Hcn.
Qed.

(** C2 (the code departs from it). [end_tests] on a recorder that never
    saw a notification reads the attribute [journal], which only
    [_init_journal] assigns: the call raises [AttributeError] instead of
    doing nothing. *)
Theorem end_tests_uninitialized (w : World) :
  end_tests (__init__, w) = (Raise (AttributeError "journal"), (__init__, w)).
Proof. reflexivity. Qed.

Lemma status_value_ended state :
  status_value state "ENDED" = SText <$> state !! "status".
Proof. reflexivity. Qed.

Lemma row_of_status_placed time n : accepted n -> status_placed n (row_of time n).
Proof.
  intros [_ [v Hv]].
  destruct n as [st|st]; unfold status_placed; cbn [state_of action_of] in *.
  - split; reflexivity.
  - rewrite status_value_ended in Hv.
    destruct (st !! "status") as [x|] eqn:E; [|discriminate].
    split; [reflexivity|]. exists x. split; [reflexivity|].
    unfold row_of, params_of. cbn [state_of action_of].
    rewrite status_value_ended, E. reflexivity.
Qed.

Lemma rows_written_placed clk ns : forall tk,
  Forall accepted ns -> Forall2 status_placed ns (rows_written clk tk ns).
Proof.
  induction ns as [|n ns IH]; intros tk Hns; cbn [rows_written].
  - constructor.
  - inversion Hns; subst. constructor; [now apply row_of_status_placed|auto].
Qed.

(** C6. Over a whole run, the rows added to [test_journal] stand one per
    notification, in order; the row of an [end_test] carries action
    [ENDED] and the [status] of that call's state, the row of a
    [start_test] carries action [STARTED] and a null status. *)
Theorem status_placement s w n ns logdir uid b :
  startable s w n ns logdir uid b ->
  exists s' w' rows,
    run (n :: ns) (s, w) = (Return tt, (s', w'))
    /\ rows_of (committed w' (journal_file logdir)) "test_journal"
       = rows_of (committed w (journal_file logdir)) "test_journal" ++ rows
    /\ Forall2 status_placed (n :: ns) rows.
Proof.
  intros Hst. destruct (run_fresh_returns _ _ _ _ _ _ _ Hst) as (s' & w' & Hrun).
  destruct (run_fresh_committed _ _ _ _ _ _ _ _ _ Hst Hrun) as (Hc & _).
  destruct Hst as (_ & _ & _ & _ & Hd & Hns & _).
  exists s', w', (rows_written (clock w) (ticks w) (n :: ns)).
  split; [exact Hrun|]. rewrite Hc, final_db_journal by assumption.
  split; [reflexivity|now apply rows_written_placed].
Qed.

(** *** The claims about a whole run *)

Lemma isoformat_leb (a b : datetime) :
  valid_datetime a = true -> valid_datetime b = true ->
  String.leb (isoformat a) (isoformat b) = true <-> datetime_le a b.
Proof.
  intros Ha Hb. unfold String.leb, datetime_le.
  rewrite isoformat_compare by assumption.
  destruct (datetime_compare a b); split; congruence.
Qed.

Lemma rows_written_lookup clk ns : forall tk i row,
  rows_written clk tk ns !! i = Some row ->
  exists n, ns !! i = Some n /\ row = row_of (isoformat (clk (tk + i))) n.
Proof.
  induction ns as [|n ns IH]; intros tk i row H; cbn [rows_written] in H.
  - discriminate.
  - destruct i as [|i]; cbn in H.
    + injection H as <-. exists n. now rewrite Nat.add_0_r.
    + destruct (IH _ _ _ H) as (n' & Hn' & ->). exists n'.
      split; [exact Hn'|]. now rewrite Nat.add_succ_r.
Qed.

Lemma length_rows_written clk ns : forall tk,
  length (rows_written clk tk ns) = length ns.
Proof. induction ns as [|n ns IH]; intros tk; cbn; [|rewrite IH]; reflexivity. Qed.

Lemma field_time_row_of time n : field "time" (row_of time n) = Some (SText time).
Proof. reflexivity. Qed.

Lemma then_compare_trans (x y z : N) (k1 k2 k3 : comparison) :
  (k1 <> Gt -> k2 <> Gt -> k3 <> Gt) ->
  then_compare (x ?= y)%N k1 <> Gt ->
  then_compare (y ?= z)%N k2 <> Gt ->
  then_compare (x ?= z)%N k3 <> Gt.
Proof.
  intros Hk.
  destruct (N.compare_spec x y), (N.compare_spec y z), (N.compare_spec x z);
    cbn [then_compare]; intros Hxy Hyz; subst;
    try congruence; try (exfalso; lia); auto.
Qed.

Lemma datetime_le_trans (a b c : datetime) :
  datetime_le a b -> datetime_le b c -> datetime_le a c.
Proof.
  unfold datetime_le, datetime_compare.
  repeat apply then_compare_trans. apply N.le_trans.
Qed.

Lemma datetime_le_refl (a : datetime) : datetime_le a a.
Proof.
  unfold datetime_le, datetime_compare. rewrite !N.compare_refl. discriminate.
Qed.

(** A clock that does not step back from one reading to the next does
    not step back over any stretch of readings. *)
Lemma steps_monotone (f : nat -> datetime) (len : nat) :
  (forall i, S i < len -> datetime_le (f i) (f (S i))) ->
  forall i j, i <= j -> j < len -> datetime_le (f i) (f j).
Proof.
  intros Hstep i j Hij. induction Hij as [|j Hij IH]; intros Hj.
  - apply datetime_le_refl.
  - eapply datetime_le_trans; [apply IH; lia|apply Hstep; lia].
Qed.

(** C3, with the condition it needs.  The [time] of the row written by
    the [i]-th notification of a run is the ISO format of the wall clock
    as read during that call, whatever the clock shows (the year-1
    datetime that [now] is called through plays no part).  The ISO format
    orders as time does; so, when the wall clock does not step backwards
    from one write of the run to the next, the [time] values of
    successive rows never decrease, as strings and as times.  Nothing is
    asked of the clock before the first write or after the last. *)
Theorem timestamps_follow_clock s w n ns logdir uid b :
  startable s w n ns logdir uid b ->
  exists s' w' rows,
    run (n :: ns) (s, w) = (Return tt, (s', w'))
    /\ rows_of (committed w' (journal_file logdir)) "test_journal"
       = rows_of (committed w (journal_file logdir)) "test_journal" ++ rows
    /\ length rows = length (n :: ns)
    /\ (forall i row, rows !! i = Some row ->
          field "time" row
          = Some (SText (isoformat (clock w (ticks w + i)))))
    /\ ((forall i, i < length (n :: ns) ->
           valid_datetime (clock w (ticks w + i)) = true) ->
        (forall i, S i < length (n :: ns) ->
           datetime_le (clock w (ticks w + i)) (clock w (ticks w + S i))) ->
        forall i j ri rj ti tj,
          i <= j -> rows !! i = Some ri -> rows !! j = Some rj ->
          field "time" ri = Some (SText ti) ->
          field "time" rj = Some (SText tj) ->
          String.leb ti tj = true
          /\ ti = isoformat (clock w (ticks w + i))
          /\ tj = isoformat (clock w (ticks w + j))
          /\ datetime_le (clock w (ticks w + i)) (clock w (ticks w + j)))
    /\ (forall t1 t2,
          valid_datetime t1 = true -> valid_datetime t2 = true ->
          String.leb (isoformat t1) (isoformat t2) = true <-> datetime_le t1 t2).
Proof.
  intros Hst.
  destruct (run_fresh_returns _ _ _ _ _ _ _ Hst) as (s' & w' & Hrun).
  destruct (run_fresh_committed _ _ _ _ _ _ _ _ _ Hst Hrun) as (Hc & _).
  destruct Hst as (_ & _ & _ & _ & Hd & Hns & _).
  exists s', w', (rows_written (clock w) (ticks w) (n :: ns)).
  split; [exact Hrun|]. rewrite Hc, final_db_journal by assumption.
  split; [reflexivity|]. split; [apply length_rows_written|].
  split; [|split].
  - intros i row Hi. destruct (rows_written_lookup _ _ _ _ _ Hi) as (m & _ & ->).
    apply field_time_row_of.
  - intros Hvalid Hstep i j ri rj ti tj Hij Hi Hj Hti Htj.
    assert (Hjlen : j < length (n :: ns)).
    { apply lookup_lt_Some in Hj. now rewrite length_rows_written in Hj. }
    destruct (rows_written_lookup _ _ _ _ _ Hi) as (mi & _ & ->).
    destruct (rows_written_lookup _ _ _ _ _ Hj) as (mj & _ & ->).
    rewrite field_time_row_of in Hti, Htj.
    injection Hti as <-. injection Htj as <-.
    assert (Hle : datetime_le (clock w (ticks w + i)) (clock w (ticks w + j))).
    { apply (steps_monotone (fun k => clock w (ticks w + k))
               (length (n :: ns)) Hstep i j Hij Hjlen). }
    split; [|split; [reflexivity|split; [reflexivity|exact Hle]]].
    apply isoformat_leb; [apply Hvalid; lia|apply Hvalid; lia|exact Hle].
  - intros t1 t2. apply isoformat_leb.
Qed.

Lemma final_db_ready w n ns logdir uid :
  well_shaped (committed w (journal_file logdir)) ->
  ready (final_db w n ns logdir uid).
Proof. intros H. now apply ready_append_rows, ready_initial_db. Qed.

(** C5. A run on a journal file that holds no job id, or the one id an
    earlier job left, ends with exactly one row in [job_info]: the row
    that was there, or else this job's id.  The file is then one on which
    a second job (another recorder, another id, the same log directory)
    can run in turn, and that run leaves the row as it is. *)
Theorem job_info_single_row s w n ns logdir uid b :
  startable s w n ns logdir uid b ->
  length (rows_of (committed w (journal_file logdir)) "job_info") <= 1 ->
  exists s' w',
    run (n :: ns) (s, w) = (Return tt, (s', w'))
    /\ rows_of (committed w' (journal_file logdir)) "job_info"
       = match rows_of (committed w (journal_file logdir)) "job_info" with
         | [] => [[SText uid]]
         | rows => rows
         end
    /\ length (rows_of (committed w' (journal_file logdir)) "job_info") = 1
    /\ forall s2 n2 ns2 uid2 b2,
         journal_initialized s2 = false ->
         state_of n2 !! "job_logdir" = Some logdir ->
         state_of n2 !! "job_unique_id" = Some uid2 ->
         Forall accepted (n2 :: ns2) ->
         base_after (base s2) (n2 :: ns2) = inr b2 ->
         exists s2' w2',
           run (n2 :: ns2) (s2, w') = (Return tt, (s2', w2'))
           /\ rows_of (committed w2' (journal_file logdir)) "job_info"
              = rows_of (committed w' (journal_file logdir)) "job_info".
Proof.
  intros Hst Hlen.
  destruct (run_fresh_returns _ _ _ _ _ _ _ Hst) as (s' & w' & Hrun).
  destruct (run_fresh_committed _ _ _ _ _ _ _ _ _ Hst Hrun)
    as (Hc & _ & _ & _ & Hun & _).
  pose proof Hst as (_ & _ & _ & Hp & Hd & _).
  exists s', w'. split; [exact Hrun|].
  assert (Hrows : rows_of (committed w' (journal_file logdir)) "job_info"
                  = match rows_of (committed w (journal_file logdir)) "job_info" with
                    | [] => [[SText uid]]
                    | rows => rows
                    end).
  { rewrite Hc. now apply final_db_job_info. }
  assert (Hone : length (rows_of (committed w' (journal_file logdir)) "job_info") = 1).
  { rewrite Hrows.
    destruct (rows_of (committed w (journal_file logdir)) "job_info")
      as [|r [|r' rs]]; cbn in *; [reflexivity|reflexivity|lia]. }
  split; [exact Hrows|]. split; [exact Hone|].
  intros s2 n2 ns2 uid2 b2 Hflag Hdir Hu Hacc Hbase.
  assert (Hst2 : startable s2 w' n2 ns2 logdir uid2 b2).
  { repeat split; try assumption.
    - now rewrite Hun.
    - rewrite Hc. now apply ready_well_shaped, final_db_ready.
    - rewrite Hc. now apply ready_well_shaped, final_db_ready. }
  destruct (run_fresh_returns _ _ _ _ _ _ _ Hst2) as (s2' & w2' & Hrun2).
  destruct (run_fresh_committed _ _ _ _ _ _ _ _ _ Hst2 Hrun2) as (Hc2 & _).
  exists s2', w2'. split; [exact Hrun2|].
  rewrite Hc2, final_db_job_info by (apply Hst2).
  destruct (rows_of (committed w' (journal_file logdir)) "job_info");
    [discriminate|reflexivity].
Qed.

Lemma events_written_writes h clk ns : forall tk,
  Forall (is_write_event h) (events_written h clk tk ns).
Proof.
  induction ns as [|n ns IH]; intros tk; cbn [events_written write_events app].
  - constructor.
  - repeat constructor. apply IH.
Qed.

Lemma init_events_connect_once p h uid d :
  length (filter is_connect (init_events p h uid d)) = 1.
Proof.
  unfold init_events, job_events, ensure_events, ensure_table.
  cbn [schema_events SCHEMA ensure_events ensure_table fst snd].
  unfold ensure_events, ensure_table. cbn [fst snd].
  repeat match goal with
         | |- context [match ?x with _ => _ end] => destruct x
         end; reflexivity.
Qed.

Lemma active_final s w n ns logdir uid b s' w' :
  startable s w n ns logdir uid b ->
  run (n :: ns) (s, w) = (Return tt, (s', w')) ->
  active s' w' (journal_file logdir) (length (conns w)).
Proof.
  intros Hst Hrun.
  destruct (run_fresh_committed _ _ _ _ _ _ _ _ _ Hst Hrun)
    as (_ & Hcn & _ & -> & _ & _ & _ & Hf & _).
  destruct Hst as (_ & _ & _ & _ & Hd & _).
  repeat split; try reflexivity.
  - rewrite Hcn. apply list_lookup_middle. reflexivity.
  - exists (final_db w n ns logdir uid).
    split; [exact Hf|now apply final_db_ready].
Qed.

(** *** What any call may add to the trace *)

Lemma logs_only_ret {A} (P : event -> Prop) (a : A) : logs_only P (mret a).
Proof. intros c. exists []. split; [symmetry; apply app_nil_r|constructor]. Qed.

Lemma logs_only_silent {A} (P : event -> Prop) (m : M A) :
  (forall c, trace (snd (snd (m c))) = trace (snd c)) -> logs_only P m.
Proof.
  intros H c. exists []. rewrite H. split; [symmetry; apply app_nil_r|constructor].
Qed.

Lemma logs_only_bind {A B} (P : event -> Prop) (m : M A) (k : A -> M B) :
  logs_only P m -> (forall a, logs_only P (k a)) -> logs_only P (m ≫= k).
Proof.
  intros Hm Hk c. rewrite bind_eq. destruct (Hm c) as (e1 & H1 & P1).
  destruct (m c) as [[a|e] c1]; cbn [snd] in *.
  - destruct (Hk a c1) as (e2 & H2 & P2). exists (e1 ++ e2).
    rewrite H2, H1, app_assoc. split; [reflexivity|now apply Forall_app].
  - exists e1. auto.
Qed.

Lemma logs_only_on_open {A} (P : event -> Prop) h
    (k : connection -> World -> outcome A * World) :
  (forall cn w, exists evs,
      trace (snd (k cn w)) = trace w ++ evs /\ Forall P evs) ->
  logs_only P (on_open h k).
Proof.
  intros Hk c. unfold on_open.
  destruct (conns (snd c) !! h) as [cn|];
    [destruct (conn_closed cn)|]; cbn [snd];
    try (exists []; split; [symmetry; apply app_nil_r|constructor]).
  apply Hk.
Qed.

Lemma trace_flush h cn w : trace (flush h cn w) = trace w.
Proof. unfold flush. now destruct (conn_txn cn). Qed.

Lemma logs_only_execute (P : event -> Prop) h stm params :
  (forall h', P (EvExecute h' stm params)) ->
  logs_only P (cursor_execute h stm params).
Proof.
  intros HP. apply logs_only_on_open. intros cn w.
  exists [EvExecute h stm params]. split; [|repeat constructor; apply HP].
  unfold execute_on.
  destruct (kind_of stm);
    repeat match goal with
           | |- context [match ?x with _ => _ end] => destruct x
           end; cbn [snd trace set_conns set_files];
    rewrite ?trace_flush; reflexivity.
Qed.

Lemma logs_only_cursor (P : event -> Prop) h :
  logs_only P (connection_cursor h).
Proof.
  apply logs_only_on_open. intros cn w. exists [].
  split; [symmetry; apply app_nil_r|constructor].
Qed.

Lemma logs_only_commit (P : event -> Prop) h :
  (forall h', P (EvCommit h')) -> logs_only P (connection_commit h).
Proof.
  intros HP. apply logs_only_on_open. intros cn w. exists [EvCommit h].
  cbn [snd]. rewrite trace_flush. split; [reflexivity|repeat constructor; apply HP].
Qed.

Lemma logs_only_close (P : event -> Prop) h :
  (forall h', P (EvClose h')) -> logs_only P (connection_close h).
Proof.
  intros HP c. unfold connection_close.
  destruct (conns (log (EvClose h) (snd c)) !! h); cbn [snd].
  - exists [EvClose h]. split; [reflexivity|repeat constructor; apply HP].
  - exists []. split; [symmetry; apply app_nil_r|constructor].
Qed.

Lemma logs_only_connect (P : event -> Prop) p :
  (forall h, P (EvConnect p h)) -> logs_only P (sqlite3_connect p).
Proof.
  intros HP c. unfold sqlite3_connect.
  destruct (bool_decide (p ∈ unopenable (snd c))); cbn [snd].
  - exists []. split; [symmetry; apply app_nil_r|constructor].
  - eexists. split; [reflexivity|repeat constructor; apply HP].
Qed.

Lemma logs_only_getattr {A} (P : event -> Prop) name (f : Self -> option A) :
  logs_only P (getattr name f).
Proof.
  apply logs_only_silent. intros c. unfold getattr. now destruct (f (fst c)).
Qed.

Lemma logs_only_getitem (P : event -> Prop) state k :
  logs_only P (getitem state k).
Proof.
  apply logs_only_silent. intros c. unfold getitem. now destruct (state !! k).
Qed.

Lemma logs_only_call_base (P : event -> Prop) method state :
  logs_only P (call_base method state).
Proof.
  apply logs_only_silent. intros c. unfold call_base.
  now destruct (method (base (fst c)) state).
Qed.

Lemma logs_only_for_each {A} (P : event -> Prop) (l : list A) body :
  (forall x, logs_only P (body x)) -> logs_only P (for_each l body).
Proof.
  intros H. induction l as [|x l IH]; cbn [for_each].
  - apply logs_only_ret.
  - apply logs_only_bind; auto.
Qed.

Lemma schema_statements t ddl :
  dict_get SCHEMA t = Some ddl -> is_update_or_delete ddl = false.
Proof.
  cbn [dict_get SCHEMA].
  repeat match goal with
         | |- context [if ?c then _ else _] => destruct c
         end; intros H; now inversion H.
Qed.

Ltac logs_only_step :=
  first
    [ simple apply logs_only_bind; [|intros ?]
    | apply logs_only_ret
    | apply logs_only_getattr
    | apply logs_only_getitem
    | apply logs_only_call_base
    | apply logs_only_cursor
    | apply logs_only_silent; intros ?; reflexivity
    | apply logs_only_execute; intros ?; reflexivity
    | apply logs_only_commit; intros ?; exact I
    | apply logs_only_close; intros ?; exact I
    | apply logs_only_connect; intros ?; exact I ].

Lemma logs_only_bind_ret {A B} (P : event -> Prop) (a : A) (k : A -> M B) :
  logs_only P (k a) -> logs_only P (mret a ≫= k).
Proof. intros H c. rewrite bind_eq. apply H. Qed.

Lemma init_journal_table_logs table :
  logs_only no_update_or_delete (_init_journal_table table).
Proof.
  unfold _init_journal_table.
  apply logs_only_bind; [logs_only_step|intros cur].
  apply logs_only_bind; [logs_only_step|intros res].
  destruct (fetchone res); [logs_only_step|].
  apply logs_only_bind; [logs_only_step|intros cur'].
  destruct (dict_get SCHEMA table) as [ddl|] eqn:E.
  - apply logs_only_bind_ret.
    apply logs_only_bind; [|intros ?; logs_only_step].
    apply logs_only_execute. intros ?. exact (schema_statements _ _ E).
  - apply logs_only_silent. intros c. reflexivity.
Qed.

Lemma init_journal_logs logdir :
  logs_only no_update_or_delete (_init_journal logdir).
Proof.
  unfold _init_journal.
  repeat first [ simple apply logs_only_for_each; intros ?;
                 apply init_journal_table_logs
               | logs_only_step ].
Qed.

Lemma record_job_info_logs state :
  logs_only no_update_or_delete (_record_job_info state).
Proof.
  unfold _record_job_info. repeat logs_only_step.
  destruct (fetchone _); repeat logs_only_step.
Qed.

Lemma lazy_init_logs state :
  logs_only no_update_or_delete (lazy_init_journal state).
Proof.
  intros c. unfold lazy_init_journal.
  destruct (negb (journal_initialized (fst c))).
  - revert c.
    change (logs_only no_update_or_delete
              (logdir ← getitem state "job_logdir" ;
               _init_journal logdir ;;
               _record_job_info state ;;
               setattr (set_journal_initialized true))).
    repeat logs_only_step.
    + apply init_journal_logs.
    + apply record_job_info_logs.
  - exists []. split; [symmetry; apply app_nil_r|constructor].
Qed.

Lemma record_status_logs state action :
  logs_only no_update_or_delete (_record_status state action).
Proof.
  unfold _record_status. cbv zeta.
  destruct (String.eqb action "ENDED"); repeat logs_only_step.
Qed.

Lemma notify_logs n : logs_only no_update_or_delete (notify n).
Proof.
  rewrite notify_unfold. repeat logs_only_step.
  - apply lazy_init_logs.
  - apply record_status_logs.
Qed.

Lemma end_tests_logs : logs_only no_update_or_delete end_tests.
Proof. unfold end_tests, _shutdown_journal. repeat logs_only_step. Qed.

(** *** What a call on an initialised recorder may do *)

Lemma keeps_journal_ret {A} (a : A) : keeps_journal (mret a).
Proof. intros c. reflexivity. Qed.

Lemma keeps_journal_bind {A B} (m : M A) (k : A -> M B) :
  keeps_journal m -> (forall a, keeps_journal (k a)) -> keeps_journal (m ≫= k).
Proof.
  intros Hm Hk c. rewrite bind_eq. specialize (Hm c).
  destruct (m c) as [[a|e] c1]; cbn [snd] in *; [|exact Hm].
  now rewrite Hk.
Qed.

Lemma keeps_journal_getattr {A} name (f : Self -> option A) :
  keeps_journal (getattr name f).
Proof. intros c. unfold getattr. now destruct (f (fst c)). Qed.

Lemma keeps_journal_getitem state k : keeps_journal (getitem state k).
Proof. intros c. unfold getitem. now destruct (state !! k). Qed.

Lemma keeps_journal_call_base method state :
  keeps_journal (call_base method state).
Proof.
  intros c. unfold call_base. now destruct (method (base (fst c)) state).
Qed.

Lemma keeps_journal_on_open {A} h
    (k : connection -> World -> outcome A * World) :
  keeps_journal (on_open h k).
Proof.
  intros c. unfold on_open.
  destruct (conns (snd c) !! h) as [cn|]; [destruct (conn_closed cn)|];
    reflexivity.
Qed.

Lemma keeps_journal_record_status state action :
  keeps_journal (_record_status state action).
Proof.
  unfold _record_status. cbv zeta.
  destruct (String.eqb action "ENDED");
    repeat first
      [ simple apply keeps_journal_bind; [|intros ?]
      | apply keeps_journal_ret
      | apply keeps_journal_getattr
      | apply keeps_journal_getitem
      | apply keeps_journal_on_open
      | intros ?; reflexivity ].
Qed.

Lemma record_status_writes state action :
  logs_only is_write (_record_status state action).
Proof.
  unfold _record_status. cbv zeta.
  destruct (String.eqb action "ENDED"); repeat logs_only_step.
Qed.

Lemma notify_initialized n (c : Self * World) :
  journal_initialized (fst c) = true ->
  journal_attrs (fst (snd (notify n c))) = journal_attrs (fst c)
  /\ exists evs,
       trace (snd (snd (notify n c))) = trace (snd c) ++ evs
       /\ Forall is_write evs.
Proof.
  intros Hflag. destruct c as [s w]. cbn [fst snd] in *.
  rewrite notify_unfold, bind_eq, lazy_init_active by assumption.
  split.
  - apply (keeps_journal_bind _ (fun _ => _)
             (keeps_journal_call_base _ _)
             (fun _ => keeps_journal_record_status _ _) (s, w)).
  - apply (logs_only_bind is_write _ (fun _ => _)
             (logs_only_call_base _ _ _)
             (fun _ => record_status_writes _ _) (s, w)).
Qed.

(** C7. A recorder initialises its storage once, on the first
    notification it sees, be it a start or an end: the calls made to
    sqlite3 over a whole run are the connect, the schema check, the
    commit and the recording of the job id, once, and after them only
    the insert and commit of each notification.  One connection is
    opened and kept, and the flag is set.  Once the flag is set, a
    notification, whatever it carries and however it ends, leaves the
    flag, the path, the connection and the cursor as they are, and calls
    sqlite3 only to insert into [test_journal] and to commit. *)
Theorem lazy_init_once :
  (forall n (c : Self * World),
      journal_initialized (fst c) = true ->
      journal_attrs (fst (snd (notify n c))) = journal_attrs (fst c)
      /\ exists evs,
           trace (snd (snd (notify n c))) = trace (snd c) ++ evs
           /\ Forall is_write evs)
  /\ forall s w n ns logdir uid b,
       startable s w n ns logdir uid b ->
       exists s' w',
         run (n :: ns) (s, w) = (Return tt, (s', w'))
         /\ trace w'
            = trace w
              ++ init_events (journal_file logdir) (length (conns w)) uid
                   (committed w (journal_file logdir))
              ++ events_written (length (conns w)) (clock w) (ticks w)
                   (n :: ns)
         /\ init_events (journal_file logdir) (length (conns w)) uid
              (committed w (journal_file logdir))
            = EvConnect (journal_file logdir) (length (conns w))
              :: schema_events (length (conns w))
                   (committed w (journal_file logdir)) SCHEMA
              ++ EvCommit (length (conns w))
              :: job_events (length (conns w)) uid
                   (ensureSchema (committed w (journal_file logdir)))
         /\ length (filter is_connect
                      (init_events (journal_file logdir) (length (conns w))
                         uid (committed w (journal_file logdir)))) = 1
         /\ Forall (is_write_event (length (conns w)))
              (events_written (length (conns w)) (clock w) (ticks w)
                 (n :: ns))
         /\ conns w' = conns w ++ [Connection (journal_file logdir) false None]
         /\ journal_initialized s' = true
         /\ journal s' = Some (length (conns w))
         /\ journal_cursor s' = Some (length (conns w))
         /\ forall state,
              lazy_init_journal state (s', w') = (Return tt, (s', w')).
Proof.
  split; [exact notify_initialized|].
  intros s w n ns logdir uid b Hst.
  destruct (run_fresh_returns _ _ _ _ _ _ _ Hst) as (s' & w' & Hrun).
  pose proof (active_final _ _ _ _ _ _ _ _ _ Hst Hrun)
    as (Hflag & _ & Hj & Hc & _).
  destruct (run_fresh_committed _ _ _ _ _ _ _ _ _ Hst Hrun)
    as (_ & Hcn & Htr & _).
  exists s', w'. split; [exact Hrun|]. split; [exact Htr|].
  split; [reflexivity|]. split; [apply init_events_connect_once|].
  split; [apply events_written_writes|]. split; [exact Hcn|].
  split; [exact Hflag|]. split; [exact Hj|]. split; [exact Hc|].
  intros state. now apply lazy_init_active.
Qed.

Lemma journal_file_shape logdir :
  journal_file logdir
  = logdir +:+ (if String.eqb logdir "" || endswith_slash logdir then ""
                else "/") +:+ ".journal.sqlite".
Proof.
  unfold journal_file, os_path_join, JOURNAL_FILENAME.
  cbn [startswith String.prefix].
  destruct (String.eqb logdir "" || endswith_slash logdir); reflexivity.
Qed.

(** C8. The path of the journal, as the recorder keeps it and as the
    connection was opened on it, is [.journal.sqlite] joined to the
    [job_logdir] of the first notification: the directory, a slash unless
    the directory is empty or ends in one, and the file name.  Later
    notifications, whatever log directory they name, leave the path as
    it is. *)
Theorem journal_path_in_logdir :
  (forall n (c : Self * World),
      journal_initialized (fst c) = true ->
      journal_path (fst (snd (notify n c))) = journal_path (fst c))
  /\ (forall logdir,
        os_path_join logdir JOURNAL_FILENAME
        = logdir +:+ (if String.eqb logdir "" || endswith_slash logdir
                      then "" else "/") +:+ ".journal.sqlite")
  /\ os_path_join "/tmp/run1" JOURNAL_FILENAME = "/tmp/run1/.journal.sqlite"
  /\ forall s w n ns logdir uid b,
       startable s w n ns logdir uid b ->
       exists s' w' h,
         run (n :: ns) (s, w) = (Return tt, (s', w'))
         /\ state_of n !! "job_logdir" = Some logdir
         /\ journal_path s' = Some (os_path_join logdir JOURNAL_FILENAME)
         /\ journal s' = Some h
         /\ conn_path <$> conns w' !! h
            = Some (os_path_join logdir JOURNAL_FILENAME).
Proof.
  split.
  { intros n c Hflag. destruct (notify_initialized n c Hflag) as [H _].
    unfold journal_attrs in H. now injection H. }
  split; [exact journal_file_shape|]. split; [reflexivity|].
  intros s w n ns logdir uid b Hst.
  destruct (run_fresh_returns _ _ _ _ _ _ _ Hst) as (s' & w' & Hrun).
  pose proof (active_final _ _ _ _ _ _ _ _ _ Hst Hrun)
    as (_ & Hp & Hj & _ & Hcn & _).
  exists s', w', (length (conns w)). split; [exact Hrun|].
  split; [apply Hst|]. split; [exact Hp|]. split; [exact Hj|].
  now rewrite Hcn.
Qed.

Lemma rows_written_flushed clk ns : forall tk,
  Forall (fun row => field "flushed" row = Some (SInt 0))
    (rows_written clk tk ns).
Proof.
  induction ns as [|n ns IH]; intros tk; cbn [rows_written]; constructor;
    [reflexivity|apply IH].
Qed.

Lemma end_tests_run s w p h :
  active s w p h ->
  end_tests (s, w)
  = (Return tt,
     (s, mkWorld (files w) (unopenable w)
           (<[h := Connection p true None]> (conns w)) (clock w) (ticks w)
           (trace w ++ [EvClose h]))).
Proof.
  intros (_ & _ & Hj & _ & Hcn & _).
  unfold end_tests, _shutdown_journal.
  rewrite bind_eq, (getattr_run _ _ _ _ h) by assumption.
  unfold connection_close. wsimpl. now rewrite Hcn.
Qed.

(** C9. No call of [start_test], [end_test] or [end_tests], on any
    object and in any world, returning or raising, executes an [UPDATE]
    or a [DELETE].  Over a whole run the rows of every table of the
    journal file stay where they were, with new rows only after them, and
    every other file is left alone; each row added to [test_journal] has
    [flushed] at the default of the schema, 0, which the insert does not
    name.  Closing the journal at the end of the run executes no
    statement and changes no file. *)
Theorem journal_append_only :
  (forall n, logs_only no_update_or_delete (notify n))
  /\ logs_only no_update_or_delete end_tests
  /\ (forall cols, insert_status = InsertInto "test_journal" cols ->
                   ~ In "flushed" cols)
  /\ forall s w n ns logdir uid b,
       startable s w n ns logdir uid b ->
       exists s' w' rows,
         run (n :: ns) (s, w) = (Return tt, (s', w'))
         /\ (forall t, rows_of (committed w (journal_file logdir)) t
                       `prefix_of`
                       rows_of (committed w' (journal_file logdir)) t)
         /\ rows_of (committed w' (journal_file logdir)) "test_journal"
            = rows_of (committed w (journal_file logdir)) "test_journal"
              ++ rows
         /\ Forall (fun row => field "flushed" row = Some (SInt 0)) rows
         /\ (forall q, q <> journal_file logdir ->
                       files w' !! q = files w !! q)
         /\ exists w'',
              end_tests (s', w') = (Return tt, (s', w''))
              /\ trace w'' = trace w' ++ [EvClose (length (conns w))]
              /\ files w'' = files w'.
Proof.
  split; [exact notify_logs|]. split; [exact end_tests_logs|].
  split.
  { intros cols H. injection H as <-. cbn [In].
    intros [H|[H|[H|[H|[]]]]]; discriminate. }
  intros s w n ns logdir uid b Hst.
  destruct (run_fresh_returns _ _ _ _ _ _ _ Hst) as (s' & w' & Hrun).
  pose proof (active_final _ _ _ _ _ _ _ _ _ Hst Hrun) as Hact.
  destruct (run_fresh_committed _ _ _ _ _ _ _ _ _ Hst Hrun)
    as (Hc & _ & _ & _ & _ & _ & _ & _ & Hother).
  pose proof Hst as (_ & _ & _ & _ & Hd & _).
  exists s', w', (rows_written (clock w) (ticks w) (n :: ns)).
  split; [exact Hrun|].
  split.
  { intros t. rewrite Hc.
    destruct (decide (t = "test_journal")) as [->|N1].
    - rewrite final_db_journal by assumption. now apply prefix_app_r.
    - destruct (decide (t = "job_info")) as [->|N2].
      + rewrite final_db_job_info by assumption.
        destruct (rows_of (committed w (journal_file logdir)) "job_info");
          [apply prefix_nil|reflexivity].
      + now rewrite final_db_other. }
  split; [rewrite Hc; now apply final_db_journal|].
  split; [apply rows_written_flushed|]. split; [exact Hother|].
  rewrite (end_tests_run _ _ _ _ Hact). eexists. split; [reflexivity|].
  split; reflexivity.
Qed.

(** *** Opening the journal *)

Lemma ensureSchema_cases d :
  ensureSchema d
  = (let d1 := match d !! "job_info" with
               | Some _ => d
               | None => <["job_info" := Table job_info_columns []]> d
               end in
     match d !! "test_journal" with
     | Some _ => d1
     | None => <["test_journal" := Table test_journal_columns []]> d1
     end).
Proof.
  unfold ensureSchema, ensure_table. cbn [fold_left SCHEMA fst snd].
  destruct (d !! "job_info"); [reflexivity|].
  now rewrite lookup_insert_ne by discriminate.
Qed.

Lemma schema_events_cases h d :
  schema_events h d SCHEMA
  = EvExecute h (PragmaTableInfo "job_info") []
    :: match d !! "job_info" with
       | Some _ => []
       | None => [EvExecute h (CreateTable "job_info" job_info_columns) []]
       end
    ++ EvExecute h (PragmaTableInfo "test_journal") []
    :: match d !! "test_journal" with
       | Some _ => []
       | None =>
           [EvExecute h (CreateTable "test_journal" test_journal_columns) []]
       end.
Proof.
  cbn [schema_events SCHEMA]. unfold ensure_events, ensure_table.
  cbn [fst snd app]. rewrite app_nil_r.
  destruct (d !! "job_info"); [reflexivity|].
  now rewrite lookup_insert_ne by discriminate.
Qed.

Lemma ensureSchema_keeps d t tb :
  d !! t = Some tb -> ensureSchema d !! t = Some tb.
Proof.
  intros H. rewrite ensureSchema_cases. cbv zeta.
  destruct (d !! "job_info") eqn:E1, (d !! "test_journal") eqn:E2;
    rewrite ?lookup_insert_ne by congruence; exact H.
Qed.

Lemma ensureSchema_complete d t :
  In t (dict_keys SCHEMA) -> is_Some (ensureSchema d !! t).
Proof.
  intros [<-|[<-|[]]]; rewrite ensureSchema_cases; cbv zeta;
    destruct (d !! "job_info") eqn:E1, (d !! "test_journal") eqn:E2;
    rewrite ?lookup_insert_eq, ?lookup_insert_ne, ?lookup_insert_eq
      by discriminate;
    rewrite ?E1, ?E2; eauto.
Qed.

Lemma ensureSchema_initialized h d :
  (forall t, In t (dict_keys SCHEMA) -> is_Some (d !! t)) ->
  ensureSchema d = d
  /\ schema_events h d SCHEMA
     = map (fun t => EvExecute h (PragmaTableInfo t) []) (dict_keys SCHEMA).
Proof.
  intros H. rewrite ensureSchema_cases, schema_events_cases. cbv zeta.
  destruct (H "job_info" ltac:(left; reflexivity)) as [t1 ->].
  destruct (H "test_journal" ltac:(right; left; reflexivity)) as [t2 ->].
  split; reflexivity.
Qed.

Lemma schema_events_only_if_absent h d t ddl :
  In (t, ddl) SCHEMA ->
  In (EvExecute h (PragmaTableInfo t) []) (schema_events h d SCHEMA)
  /\ (In (EvExecute h ddl []) (schema_events h d SCHEMA) <-> d !! t = None).
Proof.
  intros Hin. rewrite schema_events_cases.
  destruct Hin as [E|[E|[]]]; injection E as <- <-;
    destruct (d !! "job_info") eqn:E1, (d !! "test_journal") eqn:E2;
    cbn [In app];
    (split; [repeat (first [left; reflexivity | right])|]); split; intros H;
    repeat match goal with
           | H : _ \/ _ |- _ => destruct H
           | H : False |- _ => destruct H
           end;
    try discriminate; try reflexivity; auto.
Qed.

Lemma catalog_ok_ensureSchema d : catalog_ok d -> catalog_ok (ensureSchema d).
Proof.
  intros H. unfold ensureSchema. cbn [fold_left SCHEMA].
  apply (catalog_ok_ensure _ (_, _)); [right; left; reflexivity|].
  apply (catalog_ok_ensure _ (_, _)); [left; reflexivity|exact H].
Qed.

(** C4. Opening a journal looks each table of the schema up in the
    catalog ([PRAGMA table_info]) and creates it exactly when it is not
    there; the call returns; tables that exist are kept as they are,
    rows included, and afterwards both tables exist.  On a file that has
    both, only the two lookups are executed and no file changes; in
    particular a second open right after the first changes nothing. *)
Theorem schema_creation_idempotent s w logdir :
  journal_file logdir ∉ unopenable w ->
  catalog_ok (committed w (journal_file logdir)) ->
  exists s' w',
    _init_journal logdir (s, w) = (Return tt, (s', w'))
    /\ trace w'
       = trace w ++ [EvConnect (journal_file logdir) (length (conns w))]
         ++ schema_events (length (conns w))
              (committed w (journal_file logdir)) SCHEMA
         ++ [EvCommit (length (conns w))]
    /\ (forall t ddl, In (t, ddl) SCHEMA ->
          In (EvExecute (length (conns w)) (PragmaTableInfo t) [])
             (schema_events (length (conns w))
                (committed w (journal_file logdir)) SCHEMA)
          /\ (In (EvExecute (length (conns w)) ddl [])
                (schema_events (length (conns w))
                   (committed w (journal_file logdir)) SCHEMA)
              <-> committed w (journal_file logdir) !! t = None))
    /\ (forall t tb, committed w (journal_file logdir) !! t = Some tb ->
                     committed w' (journal_file logdir) !! t = Some tb)
    /\ (forall t, In t (dict_keys SCHEMA) ->
                  is_Some (committed w' (journal_file logdir) !! t))
    /\ (forall q, q <> journal_file logdir -> files w' !! q = files w !! q)
    /\ ((forall t, In t (dict_keys SCHEMA) ->
                   is_Some (committed w (journal_file logdir) !! t)) ->
        files w' = files w
        /\ schema_events (length (conns w))
             (committed w (journal_file logdir)) SCHEMA
           = map (fun t => EvExecute (length (conns w)) (PragmaTableInfo t) [])
               (dict_keys SCHEMA))
    /\ exists s'' w'',
         _init_journal logdir (s', w') = (Return tt, (s'', w''))
         /\ files w'' = files w'.
Proof.
  intros Hp Hd.
  pose proof (init_journal_run s w logdir Hp Hd) as Hrun.
  cbv zeta in Hrun. fold (journal_file logdir) in Hrun.
  set (p := journal_file logdir) in *. set (d := committed w p) in *.
  do 2 eexists. split; [exact Hrun|].
  assert (Hc : forall fs un cs clk tk tr,
             committed (mkWorld (<[p := ensureSchema d]> fs) un cs clk tk tr) p
             = ensureSchema d).
  { intros. unfold committed. cbn [files]. now rewrite lookup_insert_eq. }
  rewrite Hc. cbn [trace files].
  split; [reflexivity|]. split; [intros; now apply schema_events_only_if_absent|].
  split; [apply ensureSchema_keeps|]. split; [apply ensureSchema_complete|].
  split; [intros q Hq; now rewrite lookup_insert_ne|].
  split.
  - intros Hall. destruct (ensureSchema_initialized (length (conns w)) d Hall)
      as [Hsame Hev].
    split; [|exact Hev]. rewrite Hsame.
    destruct (Hall "job_info" ltac:(left; reflexivity)) as [tb Htb].
    apply insert_id. subst d. unfold committed in *.
    destruct (files w !! p); [reflexivity|].
    cbn in Htb. now rewrite lookup_empty in Htb.
  - match goal with
    | |- context [_init_journal logdir (?s1, ?w1)] =>
        pose proof (init_journal_run s1 w1 logdir) as Hrun2
    end.
    cbv zeta in Hrun2. fold (journal_file logdir) in Hrun2. fold p in Hrun2.
    rewrite Hc in Hrun2. cbn [unopenable files conns clock ticks trace] in Hrun2.
    specialize (Hrun2 Hp (catalog_ok_ensureSchema d Hd)).
    do 2 eexists. split; [exact Hrun2|]. cbn [files].
    rewrite insert_insert_eq. f_equal.
    apply (ensureSchema_initialized 0), ensureSchema_complete.
Qed.

(** *** A start notification and the [status] key *)

Lemma lazy_init_ext st st' (c : Self * World) :
  st !! "job_logdir" = st' !! "job_logdir" ->
  st !! "job_unique_id" = st' !! "job_unique_id" ->
  lazy_init_journal st c = lazy_init_journal st' c.
Proof.
  intros H1 H2. unfold lazy_init_journal, _record_job_info, getitem.
  now rewrite H1, H2.
Qed.

Lemma record_status_started_ext st st' (c : Self * World) :
  st !! "tagged_name" = st' !! "tagged_name" ->
  _record_status st "STARTED" c = _record_status st' "STARTED" c.
Proof.
  intros H. unfold _record_status, getitem. cbn [String.eqb Ascii.eqb Bool.eqb].
  now rewrite H.
Qed.

(** C10. [start_test] does not look at [state['status']]: two states that
    differ at most there, and that the base class treats alike, give the
    same result, object and world; a start notification without the key,
    on an active recorder, returns and writes a row whose status is
    null. *)
Theorem start_test_ignores_status s w st st' :
  (forall k, k <> "status" -> st !! k = st' !! k) ->
  (forall b, TestResult_start_test b st = TestResult_start_test b st') ->
  start_test st (s, w)
  = start_test st' (s, w)
  /\ forall p h b,
       active s w p h ->
       st !! "status" = None ->
       is_Some (st !! "tagged_name") ->
       TestResult_start_test (base s) st = inr b ->
       exists w' row,
         start_test st (s, w)
         = (Return tt, (set_base b s, w'))
         /\ rows_of (committed w' p) "test_journal"
            = rows_of (committed w p) "test_journal" ++ [row]
         /\ field "status" row = Some SNull.
Proof.
  intros Hkeys Hbase. split.
  - unfold start_test. rewrite !bind_eq.
    rewrite (lazy_init_ext st st') by (apply Hkeys; discriminate).
    destruct (lazy_init_journal st' (s, w)) as [[[]|e] c1]; [|reflexivity].
    rewrite !bind_eq.
    assert (Hcall : call_base TestResult_start_test st c1
                    = call_base TestResult_start_test st' c1).
    { unfold call_base. now rewrite Hbase. }
    rewrite Hcall.
    destruct (call_base TestResult_start_test st' c1) as [[[]|e] c2];
      [|reflexivity].
    apply record_status_started_ext, Hkeys. discriminate.
  - intros p h b Hact _ Htag Hb.
    pose proof (notify_active s w p h (OnTestStart st) b Hact) as Hrun.
    cbn [notify state_of base_method] in Hrun.
    rewrite Hrun by first [exact Hb | split; [exact Htag|now eexists]].
    destruct (active_file _ _ _ _ Hact) as (d & Hf & Hcm & Hd).
    do 2 eexists. split; [reflexivity|].
    unfold committed at 1. cbn [files]. rewrite lookup_insert_eq.
    cbn [default from_option id].
    unfold append_row. unfold rows_of at 1. rewrite lookup_insert_eq.
    split; reflexivity.
Qed.

(** *** Notifications that cannot be recorded *)

Lemma getitem_raise state k (c : Self * World) :
  state !! k = None -> getitem state k c = (Raise (KeyError k), c).
Proof. intros H. unfold getitem. now rewrite H. Qed.

Lemma call_base_raise method state s w e :
  method (base s) state = inl e ->
  call_base method state (s, w) = (Raise e, (s, w)).
Proof. intros H. unfold call_base. cbn [fst snd]. now rewrite H. Qed.

(** X1. The first notification reads [job_logdir] before anything else:
    without the key it raises [KeyError], and neither the object nor the
    world has changed (no path assigned, no connection, no file). *)
Theorem first_notification_needs_logdir n s w :
  journal_initialized s = false ->
  state_of n !! "job_logdir" = None ->
  notify n (s, w) = (Raise (KeyError "job_logdir"), (s, w)).
Proof.
  intros Hflag Hdir. rewrite notify_unfold, bind_eq.
  unfold lazy_init_journal. cbn [fst]. rewrite Hflag. cbn [negb].
  rewrite bind_eq, getitem_raise by assumption. reflexivity.
Qed.

(** The object after a connect that failed: only the path was assigned. *)
Definition path_assigned (p : string) (s : Self) : Self :=
  mkSelf (base s) (journal_initialized s) (Some p) (journal s)
    (journal_cursor s).

(** X2. When the journal file cannot be opened, the first notification
    raises the [OperationalError] of [sqlite3.connect]; the world is as
    it was (no file, no connection, no call logged, the base class not
    called), the flag stays clear and only [journal_path] has been
    assigned, so the next notification tries again from the start. *)
Theorem storage_unavailable n s w logdir :
  journal_initialized s = false ->
  state_of n !! "job_logdir" = Some logdir ->
  journal_file logdir ∈ unopenable w ->
  notify n (s, w)
  = (Raise (OperationalError "unable to open database file"),
     (path_assigned (journal_file logdir) s, w))
  /\ journal_initialized (path_assigned (journal_file logdir) s) = false
  /\ base (path_assigned (journal_file logdir) s) = base s.
Proof.
  intros Hflag Hdir Hp. split; [|split; [exact Hflag|reflexivity]].
  rewrite notify_unfold, bind_eq.
  unfold lazy_init_journal. cbn [fst]. rewrite Hflag. cbn [negb].
  rewrite bind_eq, (getitem_run _ _ logdir) by assumption.
  rewrite bind_eq. unfold _init_journal.
  rewrite bind_eq, setattr_run.
  rewrite bind_eq, (getattr_run _ _ _ _ (journal_file logdir)) by reflexivity.
  rewrite bind_eq. unfold sqlite3_connect. cbn [fst snd].
  rewrite bool_decide_eq_true_2 by assumption. reflexivity.
Qed.

(** X5. [end_test] on an active recorder with a state that has no
    [status] raises [KeyError]: by then the [end_test] of the base class
    has run, and nothing else has happened (no row, no call to sqlite3,
    no reading of the clock).  The key is read before [tagged_name]. *)
Theorem end_test_without_status s w p h st b :
  active s w p h ->
  st !! "status" = None ->
  TestResult_end_test (base s) st = inr b ->
  end_test st (s, w) = (Raise (KeyError "status"), (set_base b s, w)).
Proof.
  intros Hact Hst Hb. destruct Hact as (Hflag & _).
  unfold end_test. rewrite bind_eq, lazy_init_active by assumption.
  rewrite bind_eq, (call_base_run _ _ _ _ b) by assumption.
  unfold _record_status. cbv zeta. cbn [String.eqb Ascii.eqb Bool.eqb].
  rewrite bind_eq, bind_eq, getitem_raise by assumption. reflexivity.
Qed.

Lemma notify_without_tag s w p h n b :
  active s w p h ->
  state_of n !! "tagged_name" = None ->
  is_Some (status_value (state_of n) (action_of n)) ->
  base_method n (base s) (state_of n) = inr b ->
  notify n (s, w) = (Raise (KeyError "tagged_name"), (set_base b s, w)).
Proof.
  intros Hact Htag [v Hv] Hb.
  destruct Hact as (Hflag & _ & _ & Hc & _).
  rewrite notify_unfold, bind_eq, lazy_init_active by assumption.
  rewrite bind_eq, (call_base_run _ _ _ _ b) by assumption.
  unfold _record_status. cbv zeta. rewrite bind_eq.
  assert (Hstatus : forall c : Self * World,
            (if String.eqb (action_of n) "ENDED"
             then getitem (state_of n) "status" ≫= λ v : string, mret (SText v)
             else mret SNull) c = (Return v, c)).
  { intros c. unfold status_value in Hv.
    destruct (String.eqb (action_of n) "ENDED").
    - destruct (state_of n !! "status") as [x|] eqn:Hx; [|discriminate].
      injection Hv as <-. rewrite bind_eq, (getitem_run _ _ x) by assumption.
      reflexivity.
    - injection Hv as <-. reflexivity. }
  rewrite Hstatus.
  rewrite bind_eq, (getattr_run _ _ _ _ h) by assumption.
  rewrite bind_eq, getitem_raise by assumption. reflexivity.
Qed.

(** X6. A notification on an active recorder whose state has no
    [tagged_name] raises [KeyError] after the base class was called;
    nothing is written and the clock is not read.  The key of the error
    is [tagged_name] for a start, and for an end whose state has its
    [status]; for an end whose state has no [status] either it is
    [status], which [_record_status] reads first. *)
Theorem notification_needs_tagged_name s w p h n b :
  active s w p h ->
  state_of n !! "tagged_name" = None ->
  base_method n (base s) (state_of n) = inr b ->
  notify n (s, w)
  = (Raise (KeyError (match status_value (state_of n) (action_of n) with
                      | Some _ => "tagged_name"
                      | None => "status"
                      end)),
     (set_base b s, w)).
Proof.
  intros Hact Htag Hb.
  destruct (status_value (state_of n) (action_of n)) as [v|] eqn:Hv.
  - apply (notify_without_tag _ _ _ _ _ _ Hact Htag); [now exists v|exact Hb].
  - destruct n as [st|st]; cbn [state_of action_of base_method] in *.
    + discriminate Hv.
    + rewrite status_value_ended in Hv.
      destruct (st !! "status") as [x|] eqn:Hst; [discriminate|].
      destruct Hact as (Hflag & _).
      cbn [notify]. unfold end_test.
      rewrite bind_eq, lazy_init_active by assumption.
      rewrite bind_eq, (call_base_run _ _ _ _ b) by assumption.
      unfold _record_status. cbv zeta. cbn [String.eqb Ascii.eqb Bool.eqb].
      rewrite bind_eq, bind_eq, getitem_raise by assumption. reflexivity.
Qed.


(** *** The job id, present and absent *)

Lemma record_job_info_kept s fs un cs clk tk tr state h p d r rs :
  journal_cursor s = Some h ->
  cs !! h = Some (Connection p false None) ->
  fs !! p = Some d ->
  d !! "job_info" = Some (Table job_info_columns (r :: rs)) ->
  _record_job_info state (s, mkWorld fs un cs clk tk tr)
  = (Return tt,
     (s, mkWorld fs un cs clk tk (tr ++ [EvExecute h select_job []]))).
Proof.
  intros Hc Hcn Hf Ht. unfold _record_job_info.
  rewrite bind_eq, (getattr_run _ _ _ _ h) by assumption.
  rewrite bind_eq.
  erewrite execute_query; [|eassumption|eassumption|reflexivity|].
  2:{ apply run_select_job. eassumption. }
  reflexivity.
Qed.

Lemma record_job_info_raise s fs un cs clk tk tr state h p d :
  journal_cursor s = Some h ->
  cs !! h = Some (Connection p false None) ->
  fs !! p = Some d ->
  d !! "job_info" = Some (Table job_info_columns []) ->
  state !! "job_unique_id" = None ->
  _record_job_info state (s, mkWorld fs un cs clk tk tr)
  = (Raise (KeyError "job_unique_id"),
     (s, mkWorld fs un cs clk tk (tr ++ [EvExecute h select_job []]))).
Proof.
  intros Hc Hcn Hf Ht Hu. unfold _record_job_info.
  rewrite bind_eq, (getattr_run _ _ _ _ h) by assumption.
  rewrite bind_eq.
  erewrite execute_query; [|eassumption|eassumption|reflexivity|].
  2:{ apply run_select_job. eassumption. }
  cbn [map fetchone head].
  rewrite bind_eq, (getattr_run _ _ _ _ h) by assumption.
  rewrite bind_eq, getitem_raise by assumption. reflexivity.
Qed.

(** X3. [job_unique_id] is read only when [job_info] has no row.  On a
    journal file where an earlier job left its id, the first notification
    of a recorder returns whether or not its state has the key: the id
    in the file stays, and the notification's row is added. *)
Theorem later_job_needs_no_id n s w logdir b :
  journal_initialized s = false ->
  state_of n !! "job_logdir" = Some logdir ->
  journal_file logdir ∉ unopenable w ->
  well_shaped (committed w (journal_file logdir)) ->
  rows_of (committed w (journal_file logdir)) "job_info" <> [] ->
  accepted n ->
  base_method n (base s) (state_of n) = inr b ->
  exists w',
    notify n (s, w)
    = (Return tt,
       (set_base b (activated (journal_file logdir) (length (conns w)) s), w'))
    /\ rows_of (committed w' (journal_file logdir)) "job_info"
       = rows_of (committed w (journal_file logdir)) "job_info"
    /\ rows_of (committed w' (journal_file logdir)) "test_journal"
       = rows_of (committed w (journal_file logdir)) "test_journal"
         ++ [row_of (isoformat (clock w (ticks w))) n].
Proof.
  intros Hflag Hdir Hp Hd Hrows Hn Hb.
  set (p := journal_file logdir) in *. set (d := committed w p) in *.
  destruct (ensureSchema_tables d Hd) as [Hji Htj].
  pose proof (ready_ensureSchema d Hd) as Hready.
  rewrite notify_unfold, bind_eq.
  unfold lazy_init_journal. cbn [fst]. rewrite Hflag. cbn [negb].
  rewrite bind_eq, (getitem_run _ _ logdir) by assumption.
  rewrite bind_eq, init_journal_run
    by (try apply well_shaped_catalog; assumption).
  fold (journal_file logdir). fold p d.
  destruct (rows_of d "job_info") as [|r rs] eqn:E; [congruence|].
  rewrite bind_eq.
  erewrite record_job_info_kept;
    [|reflexivity|apply list_lookup_middle; reflexivity
     |apply lookup_insert_eq|exact Hji].
  rewrite setattr_run.
  rewrite bind_eq, (call_base_run _ _ _ _ b) by assumption.
  erewrite record_status_of;
    [|reflexivity|reflexivity|apply list_lookup_middle; reflexivity
     |apply lookup_insert_eq|exact Hready|assumption].
  eexists. split; [reflexivity|].
  unfold committed at 1 2. cbn [files ticks clock].
  rewrite insert_insert_eq, lookup_insert_eq. cbn [default from_option id].
  change (append_row ?r ?x) with (append_rows [r] x).
  rewrite rows_of_append_rows, rows_of_append_rows_ne by discriminate.
  rewrite !rows_of_ensureSchema by assumption.
  split; [exact E|reflexivity].
Qed.

(** X4. On a journal file with no job id, a first notification without
    [job_unique_id] raises [KeyError] after the file was opened and its
    schema created: the flag stays clear, while the connection stays
    open.  The next complete notification initialises again on a second
    connection; [end_tests] then closes that one, and the first is left
    open for good. *)
Theorem job_id_missing n s w logdir :
  journal_initialized s = false ->
  state_of n !! "job_logdir" = Some logdir ->
  state_of n !! "job_unique_id" = None ->
  journal_file logdir ∉ unopenable w ->
  well_shaped (committed w (journal_file logdir)) ->
  rows_of (committed w (journal_file logdir)) "job_info" = [] ->
  exists s1 w1,
    notify n (s, w) = (Raise (KeyError "job_unique_id"), (s1, w1))
    /\ journal_initialized s1 = false
    /\ base s1 = base s
    /\ journal s1 = Some (length (conns w))
    /\ conns w1 = conns w ++ [Connection (journal_file logdir) false None]
    /\ committed w1 (journal_file logdir)
       = ensureSchema (committed w (journal_file logdir))
    /\ forall n2 uid b,
         state_of n2 !! "job_logdir" = Some logdir ->
         state_of n2 !! "job_unique_id" = Some uid ->
         accepted n2 ->
         base_method n2 (base s) (state_of n2) = inr b ->
         exists s2 w2 w3,
           notify n2 (s1, w1) = (Return tt, (s2, w2))
           /\ journal s2 = Some (S (length (conns w)))
           /\ end_tests (s2, w2) = (Return tt, (s2, w3))
           /\ conns w3 !! length (conns w)
              = Some (Connection (journal_file logdir) false None)
           /\ conns w3 !! S (length (conns w))
              = Some (Connection (journal_file logdir) true None).
Proof.
  intros Hflag Hdir Hu Hp Hd Hrows.
  set (p := journal_file logdir) in *. set (d := committed w p) in *.
  set (h := length (conns w)) in *.
  destruct (ensureSchema_tables d Hd) as [Hji Htj].
  pose proof (ready_ensureSchema d Hd) as Hready.
  rewrite notify_unfold, bind_eq.
  unfold lazy_init_journal at 1. cbn [fst]. rewrite Hflag. cbn [negb].
  rewrite bind_eq, (getitem_run _ _ logdir) by assumption.
  rewrite bind_eq, init_journal_run
    by (try apply well_shaped_catalog; assumption).
  fold (journal_file logdir). fold p d h.
  rewrite bind_eq.
  erewrite record_job_info_raise;
    [|reflexivity|apply list_lookup_middle; reflexivity
     |apply lookup_insert_eq|rewrite Hji, Hrows; reflexivity|assumption].
  do 2 eexists. split; [reflexivity|].
  split; [exact Hflag|]. split; [reflexivity|]. split; [reflexivity|].
  split; [reflexivity|].
  split; [unfold committed at 1; cbn [files]; now rewrite lookup_insert_eq|].
  intros n2 uid b Hdir2 Hu2 Hn2 Hb2.
  match goal with
  | |- context [notify n2 (?s1, ?w1)] =>
      pose proof (notify_fresh s1 w1 n2 logdir uid b) as Hrun
  end.
  cbv zeta in Hrun. fold (journal_file logdir) in Hrun. fold p in Hrun.
  unfold committed at 1 2 in Hrun.
  cbn [files unopenable conns clock ticks trace base opened
       journal_initialized] in Hrun.
  rewrite lookup_insert_eq in Hrun. cbn [default from_option id] in Hrun.
  rewrite Hrun; try assumption;
    [|now apply ready_well_shaped].
  assert (Hlen : length (conns w ++ [Connection p false None]) = S h).
  { rewrite length_app. cbn. unfold h. lia. }
  rewrite Hlen.
  do 3 eexists. split; [reflexivity|]. split; [reflexivity|].
  erewrite end_tests_run.
  2:{ repeat split; try reflexivity.
      - cbn [conns]. rewrite <- Hlen. apply list_lookup_middle. reflexivity.
      - eexists. split; [cbn [files]; apply lookup_insert_eq|].
        apply ready_append_row, ready_record_job, ready_ensureSchema.
        now apply ready_well_shaped. }
  split; [reflexivity|]. cbn [conns].
  split.
  - rewrite list_lookup_insert_ne by lia.
    rewrite lookup_app_l by (rewrite length_app; cbn; unfold h; lia).
    apply list_lookup_middle. reflexivity.
  - apply list_lookup_insert_eq. rewrite !length_app. cbn. unfold h. lia.
Qed.


(** *** After the journal was closed *)

Lemma execute_closed s w h p t stm params :
  conns w !! h = Some (Connection p true t) ->
  cursor_execute h stm params (s, w) = (Raise closed_database, (s, w)).
Proof.
  intros H. unfold cursor_execute, on_open. cbn [fst snd]. now rewrite H.
Qed.

(** X7. After [end_tests] the flag is still set, so a further
    notification does not open the journal again: it calls the base
    class, reads the clock, and raises the [ProgrammingError] of a closed
    database; no row is written, no file changes, no call reaches the
    engine. *)
Theorem notification_after_close s w p h n b :
  active s w p h ->
  accepted n ->
  base_method n (base s) (state_of n) = inr b ->
  exists w1 w2,
    end_tests (s, w) = (Return tt, (s, w1))
    /\ notify n (s, w1) = (Raise closed_database, (set_base b s, w2))
    /\ files w2 = files w
    /\ trace w2 = trace w1
    /\ ticks w2 = S (ticks w)
    /\ conns w2 = conns w1.
Proof.
  intros Hact [[tag Htag] [st Hst]] Hb.
  rewrite (end_tests_run _ _ _ _ Hact).
  destruct Hact as (Hflag & _ & Hj & Hc & Hcn & _).
  do 2 eexists. split; [reflexivity|].
  rewrite notify_unfold, bind_eq, lazy_init_active by assumption.
  rewrite bind_eq, (call_base_run _ _ _ _ b) by assumption.
  unfold _record_status. cbv zeta. rewrite bind_eq.
  assert (Hstatus : forall c : Self * World,
            (if String.eqb (action_of n) "ENDED"
             then getitem (state_of n) "status" ≫= λ v : string, mret (SText v)
             else mret SNull) c = (Return st, c)).
  { intros c. unfold status_value in Hst.
    destruct (String.eqb (action_of n) "ENDED").
    - destruct (state_of n !! "status") as [x|] eqn:Hx; [|discriminate].
      injection Hst as <-. rewrite bind_eq, (getitem_run _ _ x) by assumption.
      reflexivity.
    - injection Hst as <-. reflexivity. }
  rewrite Hstatus.
  rewrite bind_eq, (getattr_run _ _ _ _ h) by assumption.
  rewrite bind_eq, (getitem_run _ _ tag) by assumption.
  rewrite bind_eq, epoch_run.
  rewrite bind_eq, now_run.
  rewrite bind_eq.
  erewrite execute_closed
    by (cbn [conns]; eapply lookup_after_insert; eassumption).
  split; [reflexivity|]. repeat split.
Qed.

(** X8. [end_tests] may be called again: the second call returns as
    well, the connection stays closed and no file changes. *)
Theorem end_tests_twice s w p h :
  active s w p h ->
  exists w1 w2,
    end_tests (s, w) = (Return tt, (s, w1))
    /\ end_tests (s, w1) = (Return tt, (s, w2))
    /\ files w2 = files w
    /\ conns w2 = conns w1
    /\ conns w2 !! h = Some (Connection p true None).
Proof.
  intros Hact. rewrite (end_tests_run _ _ _ _ Hact).
  destruct Hact as (_ & _ & Hj & _ & Hcn & _).
  do 2 eexists. split; [reflexivity|].
  unfold end_tests, _shutdown_journal.
  rewrite bind_eq, (getattr_run _ _ _ _ h) by assumption.
  unfold connection_close.
  cbn [fst snd log conns files unopenable clock ticks trace].
  rewrite (lookup_after_insert _ _ _ _ Hcn). cbn [conn_path].
  split; [reflexivity|]. cbn [files conns].
  rewrite list_insert_insert_eq.
  repeat split. eapply lookup_after_insert, Hcn.
Qed.

(** *** When the base class raises *)

Lemma committed_insert p (x : database) fs un cs clk tk tr :
  committed (mkWorld (<[p := x]> fs) un cs clk tk tr) p = x.
Proof. unfold committed. cbn [files]. now rewrite lookup_insert_eq. Qed.

(** X9. The base class is called after the journal was initialised and
    before the row is written.  When its method raises, the exception
    goes on to the caller and no row is written; on an active recorder
    nothing has changed, and on a first notification the journal has
    been opened all the same: flag set, file with its tables and the job
    id, connection open. *)
Theorem base_class_raises n e :
  (forall s w p h,
      active s w p h ->
      base_method n (base s) (state_of n) = inl e ->
      notify n (s, w) = (Raise e, (s, w)))
  /\ forall s w logdir uid,
       journal_initialized s = false ->
       state_of n !! "job_logdir" = Some logdir ->
       state_of n !! "job_unique_id" = Some uid ->
       journal_file logdir ∉ unopenable w ->
       well_shaped (committed w (journal_file logdir)) ->
       base_method n (base s) (state_of n) = inl e ->
       exists s' w',
         notify n (s, w) = (Raise e, (s', w'))
         /\ journal_initialized s' = true
         /\ base s' = base s
         /\ committed w' (journal_file logdir)
            = initial_db uid (committed w (journal_file logdir))
         /\ rows_of (committed w' (journal_file logdir)) "test_journal"
            = rows_of (committed w (journal_file logdir)) "test_journal"
         /\ conns w' = conns w ++ [Connection (journal_file logdir) false None]
         /\ ticks w' = ticks w.
Proof.
  split.
  - intros s w p h (Hflag & _) Hb.
    rewrite notify_unfold, bind_eq, lazy_init_active by assumption.
    now rewrite bind_eq, (call_base_raise _ _ _ _ e).
  - intros s w logdir uid Hflag Hdir Hu Hp Hd Hb.
    rewrite notify_unfold, bind_eq.
    rewrite (lazy_init_fresh _ _ _ logdir uid) by assumption.
    fold (journal_file logdir).
    rewrite bind_eq, (call_base_raise _ _ _ _ e) by assumption.
    do 2 eexists. split; [reflexivity|].
    rewrite !committed_insert.
    split; [reflexivity|]. split; [reflexivity|]. split; [reflexivity|].
    split; [|split; reflexivity].
    rewrite rows_of_record_job_ne by discriminate.
    now apply rows_of_ensureSchema.
Qed.


(** *** A journal file that another program has shaped *)

Lemma execute_query_raise s fs un cs clk tk tr h p d stm params e :
  cs !! h = Some (Connection p false None) ->
  fs !! p = Some d ->
  kind_of stm = KindQuery ->
  run_stmt stm params d = inl e ->
  cursor_execute h stm params (s, mkWorld fs un cs clk tk tr)
  = (Raise e,
     (s, mkWorld fs un cs clk tk (tr ++ [EvExecute h stm params]))).
Proof.
  intros Hcn Hf Hk Hrun. unfold cursor_execute, on_open, execute_on.
  wsimpl. rewrite Hcn. wsimpl. rewrite Hk. wsimpl. rewrite Hf. wsimpl.
  rewrite Hrun. reflexivity.
Qed.

(** X10. [_init_journal] looks only at whether a table exists, not at
    its columns.  When the file already has a [job_info] table without a
    [unique_id] column, the table is kept as it is, and the first
    notification raises the [OperationalError] of the [SELECT] in
    [_record_job_info]; the flag stays clear and no row is written. *)
Theorem foreign_job_info_table n s w logdir tb :
  journal_initialized s = false ->
  state_of n !! "job_logdir" = Some logdir ->
  journal_file logdir ∉ unopenable w ->
  catalog_ok (committed w (journal_file logdir)) ->
  committed w (journal_file logdir) !! "job_info" = Some tb ->
  index_of "unique_id" (tbl_columns tb) = None ->
  exists msg s' w',
    notify n (s, w) = (Raise (OperationalError msg), (s', w'))
    /\ journal_initialized s' = false
    /\ base s' = base s
    /\ committed w' (journal_file logdir) !! "job_info" = Some tb
    /\ rows_of (committed w' (journal_file logdir)) "test_journal"
       = rows_of (committed w (journal_file logdir)) "test_journal"
    /\ ticks w' = ticks w.
Proof.
  intros Hflag Hdir Hp Hd Htb Hcol.
  pose proof (ensureSchema_keeps _ _ _ Htb) as Hkept.
  rewrite notify_unfold, bind_eq.
  unfold lazy_init_journal at 1. cbn [fst]. rewrite Hflag. cbn [negb].
  rewrite bind_eq, (getitem_run _ _ logdir) by assumption.
  rewrite bind_eq, init_journal_run by assumption.
  fold (journal_file logdir).
  rewrite bind_eq. unfold _record_job_info.
  rewrite bind_eq, (getattr_run _ _ _ _ (length (conns w))) by reflexivity.
  rewrite bind_eq.
  erewrite execute_query_raise;
    [|apply list_lookup_middle; reflexivity|apply lookup_insert_eq
     |reflexivity|].
  2:{ cbn [run_stmt]. rewrite Hkept. unfold all_known. cbn [forallb].
      rewrite Hcol. reflexivity. }
  do 3 eexists. split; [reflexivity|].
  rewrite committed_insert.
  split; [exact Hflag|]. split; [reflexivity|]. split; [exact Hkept|].
  split; [|reflexivity].
  unfold rows_of. rewrite ensureSchema_cases. cbv zeta. rewrite Htb.
  destruct (committed w (journal_file logdir) !! "test_journal") eqn:E.
  - now rewrite E.
  - now rewrite lookup_insert_eq.
Qed.

(** *** The other columns of a row *)

(** Where the name of the test and the default of [flushed] stand. *)
Definition tag_placed (n : notification) (row : list sqlval) : Prop :=
  exists tag,
    state_of n !! "tagged_name" = Some tag
    /\ field "tag" row = Some (SText tag)
    /\ field "flushed" row = Some (SInt 0)
    /\ length row = length test_journal_columns.

Lemma row_of_tag_placed time n : accepted n -> tag_placed n (row_of time n).
Proof.
  intros [[tag Htag] _]. exists tag. split; [exact Htag|].
  unfold row_of, params_of. rewrite Htag. repeat split.
Qed.

Lemma rows_written_tag_placed clk ns : forall tk,
  Forall accepted ns -> Forall2 tag_placed ns (rows_written clk tk ns).
Proof.
  induction ns as [|n ns IH]; intros tk Hns; cbn [rows_written].
  - constructor.
  - inversion Hns; subst. constructor; [now apply row_of_tag_placed|auto].
Qed.

(** X11. Over a whole run, the row of each notification carries
    [state['tagged_name']] in [tag], and 0 in [flushed]: the insert does
    not name that column, and the schema's default fills it.  Every row
    has the five columns of the table. *)
Theorem rows_carry_tag s w n ns logdir uid b :
  startable s w n ns logdir uid b ->
  exists s' w' rows,
    run (n :: ns) (s, w) = (Return tt, (s', w'))
    /\ rows_of (committed w' (journal_file logdir)) "test_journal"
       = rows_of (committed w (journal_file logdir)) "test_journal" ++ rows
    /\ Forall2 tag_placed (n :: ns) rows.
Proof.
  intros Hst. destruct (run_fresh_returns _ _ _ _ _ _ _ Hst) as (s' & w' & Hrun).
  destruct (run_fresh_committed _ _ _ _ _ _ _ _ _ Hst Hrun) as (Hc & _).
  destruct Hst as (_ & _ & _ & _ & Hd & Hns & _).
  exists s', w', (rows_written (clock w) (ticks w) (n :: ns)).
  split; [exact Hrun|]. rewrite Hc, final_db_journal by assumption.
  split; [reflexivity|now apply rows_written_tag_placed].
Qed.

(** *** The text of a time *)

Lemma then_compare_eq c k : then_compare c k = Eq -> c = Eq /\ k = Eq.
Proof. destruct c; cbn; intros H; try discriminate. now split. Qed.

(** X12. The text that [_record_status] stores for a reading of the
    clock has 19 characters when the reading falls on a whole second and
    26 otherwise, and it determines the reading: two readings with the
    same text are the same. *)
Theorem isoformat_shape (a b : datetime) :
  valid_datetime a = true -> valid_datetime b = true ->
  String.length (isoformat a) = (if (microsecond a =? 0)%N then 19 else 26)
  /\ (isoformat a = isoformat b -> a = b).
Proof.
  intros Ha Hb. split.
  - destruct (valid_datetime_bounds a Ha) as (?&?&?&?&?&?&?).
    unfold isoformat. rewrite !zero_pad_fixed by assumption.
    destruct (microsecond a =? 0)%N;
      rewrite !length_append, !length_fixed_digits; reflexivity.
  - intros H.
    pose proof (isoformat_compare a b Ha Hb) as Hc.
    rewrite H in Hc.
    assert (Hrefl : String.compare (isoformat b) (isoformat b) = Eq).
    { pose proof (String.compare_antisym (isoformat b) (isoformat b)) as Hs.
      destruct (String.compare (isoformat b) (isoformat b));
        [reflexivity|discriminate|discriminate]. }
    rewrite Hrefl in Hc. symmetry in Hc. unfold datetime_compare in Hc.
    repeat match goal with
           | H : then_compare _ _ = Eq |- _ =>
               apply then_compare_eq in H; destruct H
           end.
    repeat match goal with
           | H : (_ ?= _)%N = Eq |- _ => apply N.compare_eq in H
           end.
    destruct a, b; cbn in *; congruence.
Qed.

(** *** A later notification that names another directory *)

(** X13. Once the recorder is initialised, [state['job_logdir']] is not
    read any more.  A notification that names another directory is
    written to the journal that is open; no connection is made, and the
    journal file of the directory it names is neither created nor
    changed. *)
Theorem late_logdir_is_ignored s w p h n b other :
  active s w p h ->
  accepted n ->
  base_method n (base s) (state_of n) = inr b ->
  state_of n !! "job_logdir" = Some other ->
  journal_file other <> p ->
  exists w',
    notify n (s, w) = (Return tt, (set_base b s, w'))
    /\ rows_of (committed w' p) "test_journal"
       = rows_of (committed w p) "test_journal"
         ++ [row_of (isoformat (clock w (ticks w))) n]
    /\ files w' !! journal_file other = files w !! journal_file other
    /\ conns w' = conns w
    /\ journal_path (set_base b s) = Some p.
Proof.
  intros Hact Hn Hb _ Hne.
  rewrite (notify_active _ _ _ _ _ _ Hact Hn Hb). cbv zeta.
  destruct Hact as (_ & Hp & _).
  eexists. split; [reflexivity|]. rewrite committed_insert.
  split.
  - change (append_row ?r ?x) with (append_rows [r] x).
    apply rows_of_append_rows.
  - cbn [files conns]. rewrite lookup_insert_ne by congruence.
    repeat split. exact Hp.
Qed.

(** *** A failure late in a run *)

Lemma for_each_app {A} (l1 l2 : list A) (f : A -> M unit) (c : Self * World) :
  for_each (l1 ++ l2) f c
  = match for_each l1 f c with
    | (Return _, c') => for_each l2 f c'
    | (Raise e, c') => (Raise e, c')
    end.
Proof.
  revert c. induction l1 as [|x l1 IH]; intros c; cbn [for_each app].
  - reflexivity.
  - rewrite !bind_eq. destruct (f x c) as [[[]|e] c']; [apply IH|reflexivity].
Qed.

(** X14. Every row is committed by the notification that writes it.
    When a later notification of the run fails, here for want of a
    [tagged_name], the run stops there with its exception, and the rows
    of the notifications before it are in the file; the connection is
    still open, outside any transaction. *)
Theorem rows_survive_later_failure s w n ns logdir uid b bad b' rest :
  startable s w n ns logdir uid b ->
  state_of bad !! "tagged_name" = None ->
  is_Some (status_value (state_of bad) (action_of bad)) ->
  base_method bad b (state_of bad) = inr b' ->
  exists s' w',
    run (n :: ns ++ bad :: rest) (s, w)
    = (Raise (KeyError "tagged_name"), (s', w'))
    /\ rows_of (committed w' (journal_file logdir)) "test_journal"
       = rows_of (committed w (journal_file logdir)) "test_journal"
         ++ rows_written (clock w) (ticks w) (n :: ns)
    /\ conns w' !! length (conns w)
       = Some (Connection (journal_file logdir) false None)
    /\ ticks w' = ticks w + length (n :: ns)
    /\ base s' = b'.
Proof.
  intros Hst Htag Hv Hb.
  destruct (run_fresh_returns _ _ _ _ _ _ _ Hst) as (s1 & w1 & Hrun).
  pose proof (active_final _ _ _ _ _ _ _ _ _ Hst Hrun) as Hact.
  destruct (run_fresh_committed _ _ _ _ _ _ _ _ _ Hst Hrun)
    as (Hc & Hcn & _ & Hs1 & _ & _ & Htk & _).
  assert (Hb1 : base_method bad (base s1) (state_of bad) = inr b')
    by (rewrite Hs1; exact Hb).
  change (n :: ns ++ bad :: rest) with ((n :: ns) ++ bad :: rest).
  unfold run in *. rewrite for_each_app, Hrun.
  cbn [for_each]. rewrite bind_eq.
  rewrite (notify_without_tag _ _ _ _ _ _ Hact Htag Hv Hb1).
  do 2 eexists. split; [reflexivity|].
  destruct Hst as (_ & _ & _ & _ & Hd & _).
  rewrite Hc, final_db_journal by assumption.
  split; [reflexivity|]. split; [|split; [exact Htk|reflexivity]].
  rewrite Hcn. apply list_lookup_middle. reflexivity.
Qed.

End Recorder.

Arguments Self : clear implicits.
Arguments M : clear implicits.

(** ** The plugin class [Journal]

    [Journal] registers the [--journal] option on the parser of the
    [run] command, and, when the option was given, makes
    [TestResultJournal] the class of the job's result.  The objects it
    talks to live in a heap and are named by references: the plugin
    keeps a reference to the avocado parser it was configured with, and
    that parser refers to the argparse parsers [runner] and
    [application]. *)

(** The class that [activate] hands to [set_defaults]. *)
Inductive result_class := TestResultJournal.

(** The attributes of an avocado parser that the plugin reads; [None]
    stands for an attribute that is not assigned. *)
Record Parser := mkParser {
  runner : option nat;
  application : option nat
}.

(** The attributes that [Journal] assigns. *)
Record Journal := mkJournal {
  parser : option nat;
  configured : option bool
}.

(** The [args] of [activate]: [journal] is the value of the option, or
    is missing when the option was never registered. *)
Record Namespace := mkNamespace {
  args_journal : option bool
}.

Definition Journal_name : string := "journal".
Definition Journal_enabled : bool := true.

Definition set_parser (p : nat) (self : Journal) : Journal :=
  mkJournal (Some p) (configured self).
Definition set_configured (b : bool) (self : Journal) : Journal :=
  mkJournal (parser self) (Some b).

Definition is_attribute_error (e : exn) : bool :=
  match e with AttributeError _ => true | _ => false end.

Section JournalPlugin.

(** An argparse parser is not part of this module: its state and the two
    methods called on it are parameters.  A method may raise, and then
    leaves the parser as it was. *)
Context {ArgumentParser : Type}.
Variable add_argument :
  ArgumentParser -> string -> string -> string -> exn + ArgumentParser.
Variable set_defaults :
  ArgumentParser -> string -> result_class -> exn + ArgumentParser.

Record Heap := mkHeap {
  parsers : nat -> Parser;
  argparsers : nat -> ArgumentParser
}.

Definition PM (A : Type) : Type :=
  Journal * Heap -> outcome A * (Journal * Heap).

#[local] Instance PM_ret : MRet PM := fun A a c => (Return a, c).
#[local] Instance PM_bind : MBind PM := fun A B k m c =>
  match m c with
  | (Return a, c') => k a c'
  | (Raise e, c') => (Raise e, c')
  end.

(** [obj.name], for an attribute that may not be assigned. *)
Definition attribute {A} (name : string) (v : option A) : PM A :=
  fun c =>
    match v with
    | Some a => (Return a, c)
    | None => (Raise (AttributeError name), c)
    end.

Definition self_attribute {A} (name : string) (field : Journal -> option A)
  : PM A :=
  fun c => attribute name (field (fst c)) c.

Definition parser_attribute (name : string) (field : Parser -> option nat)
    (p : nat) : PM nat :=
  fun c => attribute name (field (parsers (snd c) p)) c.

Definition assign (f : Journal -> Journal) : PM unit :=
  fun c => (Return tt, (f (fst c), snd c)).

(** A call of a method on the argparse parser behind reference [r]. *)
Definition method_call (r : nat)
    (method : ArgumentParser -> exn + ArgumentParser) : PM unit :=
  fun c =>
    match method (argparsers (snd c) r) with
    | inr ap =>
        (Return tt,
         (fst c, mkHeap (parsers (snd c)) (<[r := ap]> (argparsers (snd c)))))
    | inl e => (Raise e, c)
    end.

(** [try: body except AttributeError: pass] *)
Definition except_AttributeError_pass (body : PM unit) : PM unit :=
  fun c =>
    match body c with
    | (Raise e, c') =>
        if is_attribute_error e then (Return tt, c') else (Raise e, c')
    | r => r
    end.

Definition configure (parser_ref : nat) : PM unit :=
  assign (set_parser parser_ref) ;;
  p ← self_attribute "parser" parser ;
  r ← parser_attribute "runner" runner p ;
  method_call r
    (fun ap => add_argument ap "--journal" "store_true"
                 "Records test status changes") ;;
  assign (set_configured true).

Definition activate (args : Namespace) : PM unit :=
  except_AttributeError_pass
    (j ← attribute "journal" (args_journal args) ;
     if (j : bool)
     then p ← self_attribute "parser" parser ;
          a ← parser_attribute "application" application p ;
          method_call a
            (fun ap => set_defaults ap "journal_result" TestResultJournal)
     else mret tt).

(** The call that [configure] makes on the runner's parser, and the one
    that [activate] makes on the application's. *)
Definition add_journal_option (ap : ArgumentParser) : exn + ArgumentParser :=
  add_argument ap "--journal" "store_true" "Records test status changes".

Definition set_journal_result (ap : ArgumentParser) : exn + ArgumentParser :=
  set_defaults ap "journal_result" TestResultJournal.

Implicit Types (self : Journal) (heap : Heap) (args : Namespace).

Lemma pbind_eq {A B} (m : PM A) (k : A -> PM B) (c : Journal * Heap) :
  (m ≫= k) c
  = match m c with
    | (Return a, c') => k a c'
    | (Raise e, c') => (Raise e, c')
    end.
Proof. reflexivity. Qed.

Lemma configure_unfold p self heap :
  configure p (self, heap)
  = match runner (parsers heap p) with
    | None => (Raise (AttributeError "runner"), (set_parser p self, heap))
    | Some rn =>
        match add_journal_option (argparsers heap rn) with
        | inr ap =>
            (Return tt,
             (mkJournal (Some p) (Some true),
              mkHeap (parsers heap) (<[rn := ap]> (argparsers heap))))
        | inl e => (Raise e, (set_parser p self, heap))
        end
    end.
Proof.
  unfold configure, add_journal_option.
  rewrite pbind_eq. unfold assign at 1. cbn [fst snd].
  rewrite pbind_eq. unfold self_attribute, attribute at 1.
  cbn [fst snd set_parser parser].
  rewrite pbind_eq. unfold parser_attribute, attribute. cbn [fst snd].
  destruct (runner (parsers heap p)) as [rn|]; [|reflexivity].
  rewrite pbind_eq. unfold method_call. cbn [fst snd].
  destruct (add_argument (argparsers heap rn) "--journal" "store_true"
              "Records test status changes") as [e|ap]; reflexivity.
Qed.

(** X15. [configure] assigns [self.parser] first, whatever happens
    next.  It returns exactly when the parser has a [runner] and
    [add_argument] accepts the option; then [configured] is set.  When it
    raises, because [runner] is missing or because [add_argument]
    raised, [configured] is left as it was and no parser has changed. *)
Theorem configure_outcome p self heap :
  let r := configure p (self, heap) in
  parser (fst (snd r)) = Some p
  /\ parsers (snd (snd r)) = parsers heap
  /\ match fst r with
     | Return _ =>
         configured (fst (snd r)) = Some true
         /\ exists rn ap,
              runner (parsers heap p) = Some rn
              /\ add_journal_option (argparsers heap rn) = inr ap
              /\ argparsers (snd (snd r)) = <[rn := ap]> (argparsers heap)
     | Raise e =>
         configured (fst (snd r)) = configured self
         /\ snd (snd r) = heap
         /\ (runner (parsers heap p) = None /\ e = AttributeError "runner"
             \/ exists rn, runner (parsers heap p) = Some rn
                           /\ add_journal_option (argparsers heap rn) = inl e)
     end.
Proof.
  cbv zeta. rewrite configure_unfold.
  destruct (runner (parsers heap p)) as [rn|] eqn:Hr.
  - destruct (add_journal_option (argparsers heap rn)) as [e|ap] eqn:Ha;
      cbn [fst snd parser configured parsers argparsers set_parser].
    + split; [reflexivity|]. split; [reflexivity|].
      split; [reflexivity|]. split; [reflexivity|].
      right. exists rn. now split.
    + split; [reflexivity|]. split; [reflexivity|].
      split; [reflexivity|]. exists rn, ap. now repeat split.
  - cbn [fst snd parser configured parsers argparsers set_parser].
    split; [reflexivity|]. split; [reflexivity|].
    split; [reflexivity|]. split; [reflexivity|]. left. now split.
Qed.

Lemma activate_unfold args (c : Journal * Heap) :
  activate args c
  = match args_journal args with
    | None => (Return tt, c)
    | Some false => (Return tt, c)
    | Some true =>
        match parser (fst c) with
        | None => (Return tt, c)
        | Some p =>
            match application (parsers (snd c) p) with
            | None => (Return tt, c)
            | Some a =>
                match set_journal_result (argparsers (snd c) a) with
                | inr ap =>
                    (Return tt,
                     (fst c,
                      mkHeap (parsers (snd c))
                        (<[a := ap]> (argparsers (snd c)))))
                | inl e =>
                    if is_attribute_error e then (Return tt, c)
                    else (Raise e, c)
                end
            end
        end
    end.
Proof.
  unfold activate, except_AttributeError_pass, set_journal_result.
  rewrite pbind_eq. unfold attribute at 1.
  destruct (args_journal args) as [[|]|]; [|reflexivity|reflexivity].
  rewrite pbind_eq. unfold self_attribute, attribute at 1.
  destruct (parser (fst c)) as [p|]; [|reflexivity].
  rewrite pbind_eq. unfold parser_attribute, attribute.
  destruct (application (parsers (snd c) p)) as [a|]; [|reflexivity].
  unfold method_call.
  destruct (set_defaults (argparsers (snd c) a) "journal_result"
              TestResultJournal) as [e|ap]; reflexivity.
Qed.

(** X16. [activate] never lets an [AttributeError] out, and changes
    neither the plugin nor an avocado parser.  It returns, or it raises
    what [set_defaults] raised, when that is not an [AttributeError];
    then nothing has changed. *)
Theorem activate_outcome args self heap :
  let r := activate args (self, heap) in
  fst (snd r) = self
  /\ parsers (snd (snd r)) = parsers heap
  /\ (fst r = Return tt
      \/ exists e p a,
           fst r = Raise e
           /\ is_attribute_error e = false
           /\ snd r = (self, heap)
           /\ args_journal args = Some true
           /\ parser self = Some p
           /\ application (parsers heap p) = Some a
           /\ set_journal_result (argparsers heap a) = inl e).
Proof.
  cbv zeta. rewrite activate_unfold. cbn [fst snd].
  destruct (args_journal args) as [[|]|]; try (repeat split; now left).
  destruct (parser self) as [p|]; try (repeat split; now left).
  destruct (application (parsers heap p)) as [a|] eqn:Ha;
    try (repeat split; now left).
  destruct (set_journal_result (argparsers heap a)) as [e|ap] eqn:Hs;
    try (repeat split; now left).
  destruct (is_attribute_error e) eqn:He; try (repeat split; now left).
  repeat split. right. exists e, p, a. repeat split; assumption.
Qed.

(** X17. [activate] does nothing at all when the option was not given
    or not registered, when the plugin was never configured, when the
    parser has no [application], or when [set_defaults] raises an
    [AttributeError]: it returns, and [set_defaults] has had no
    effect. *)
Theorem activate_does_nothing args self heap :
  args_journal args <> Some true
  \/ parser self = None
  \/ (exists p, parser self = Some p
                /\ application (parsers heap p) = None)
  \/ (exists p a x,
        parser self = Some p
        /\ application (parsers heap p) = Some a
        /\ set_journal_result (argparsers heap a) = inl (AttributeError x)) ->
  activate args (self, heap) = (Return tt, (self, heap)).
Proof.
  intros H. rewrite activate_unfold. cbn [fst snd].
  destruct (args_journal args) as [[|]|]; try reflexivity.
  destruct H as [H|[H|[(p & Hp & Ha)|(p & a & x & Hp & Ha & Hs)]]].
  - congruence.
  - now rewrite H.
  - now rewrite Hp, Ha.
  - now rewrite Hp, Ha, Hs.
Qed.

(** X18. A plugin that is configured and then activated with the option
    given: the runner's parser has the option, with action
    [store_true], [configured] is set, and the application's parser has
    [TestResultJournal] as [journal_result].  When [runner] and
    [application] are the same parser, [set_defaults] sees the option. *)
Theorem configure_then_activate p rn a self heap ap1 ap2 :
  runner (parsers heap p) = Some rn ->
  application (parsers heap p) = Some a ->
  add_journal_option (argparsers heap rn) = inr ap1 ->
  set_journal_result (<[rn := ap1]> (argparsers heap) a) = inr ap2 ->
  exists c,
    configure p (self, heap) = (Return tt, c)
    /\ activate (mkNamespace (Some true)) c
       = (Return tt,
          (mkJournal (Some p) (Some true),
           mkHeap (parsers heap)
             (<[a := ap2]> (<[rn := ap1]> (argparsers heap))))).
Proof.
  intros Hr Ha Hadd Hset.
  rewrite configure_unfold, Hr, Hadd. eexists. split; [reflexivity|].
  rewrite activate_unfold.
  cbn [args_journal fst snd parser parsers argparsers].
  now rewrite Ha, Hset.
Qed.

(** X19. The plugin that was never configured ignores the option: even
    with [--journal] given, [activate] returns and the result class is
    not set.  After a [configure] that failed for want of a [runner],
    [self.parser] is assigned all the same, and [activate] does set the
    result class. *)
Theorem activate_after_failed_configure p a self heap ap :
  runner (parsers heap p) = None ->
  application (parsers heap p) = Some a ->
  set_journal_result (argparsers heap a) = inr ap ->
  parser self = None ->
  activate (mkNamespace (Some true)) (self, heap) = (Return tt, (self, heap))
  /\ configure p (self, heap)
     = (Raise (AttributeError "runner"), (set_parser p self, heap))
  /\ activate (mkNamespace (Some true)) (set_parser p self, heap)
     = (Return tt,
        (set_parser p self,
         mkHeap (parsers heap) (<[a := ap]> (argparsers heap)))).
Proof.
  intros Hr Ha Hs Hp. split; [|split].
  - rewrite activate_unfold. cbn [args_journal fst snd]. now rewrite Hp.
  - now rewrite configure_unfold, Hr.
  - rewrite activate_unfold.
    cbn [args_journal fst snd set_parser parser]. now rewrite Ha, Hs.
Qed.

End JournalPlugin.

Arguments Heap : clear implicits.
Arguments PM : clear implicits.


(** ** A concrete job: the scenario of the design document

    A base class that counts the tests that ended, a clock that moves on
    one second per reading (up to the end of the minute), an empty disk,
    and the notifications of one test. *)

Definition counting_start (b : nat) (_ : pydict) : exn + nat := inr b.
Definition counting_end (b : nat) (_ : pydict) : exn + nat := inr (S b).

Definition example_clock (k : nat) : datetime :=
  Datetime 2014 5 17 10 30 (N.of_nat (Nat.min k 59)) 0.

Definition example_world : World := mkWorld ∅ ∅ [] example_clock 0 [].

(** A wall clock on the night when summer time ends: local time is set
    back from 01:59:59 to 01:00:00. *)
Definition fallback_clock (k : nat) : datetime :=
  match k with
  | O => Datetime 2014 11 2 1 59 59 0
  | S k' => Datetime 2014 11 2 1 0 (N.of_nat (Nat.min k' 59)) 0
  end.

Definition fallback_world : World := mkWorld ∅ ∅ [] fallback_clock 0 [].

Definition start_state : pydict :=
  <["job_logdir" := "/tmp/run1"]>
    (<["job_unique_id" := "job-123"]> (<["tagged_name" := "testA"]> ∅)).

Definition end_state : pydict := <["status" := "PASS"]> start_state.

Definition example_self : Self nat := __init__ 0.

(** The recorder and the world once the test has started. *)
Definition started : Self nat * World :=
  snd (start_test counting_start start_state (example_self, example_world)).

Lemma example_startable :
  startable counting_start counting_end example_self example_world
    (OnTestStart start_state) [OnTestEnd end_state] "/tmp/run1" "job-123" 1.
Proof.
  repeat split.
  - apply not_elem_of_empty.
  - intros tb H. vm_compute in H. discriminate.
  - intros tb H. vm_compute in H. discriminate.
  - repeat constructor; eexists; vm_compute; reflexivity.
Defined.

Lemma example_active :
  active (fst started) (snd started) "/tmp/run1/.journal.sqlite" 0.
Proof.
  repeat split.
  eexists. split; [vm_compute; reflexivity|].
  split; vm_compute; reflexivity.
Defined.

Lemma example_clock_valid k : valid_datetime (example_clock k) = true.
Proof.
  unfold valid_datetime, example_clock. cbn [year month day hour minute second microsecond].
  assert (H : (N.of_nat (Nat.min k 59) <? 60)%N = true) by (apply N.ltb_lt; lia).
  rewrite H. reflexivity.
Defined.

Lemma example_clock_monotone i j :
  i <= j -> datetime_le (example_clock i) (example_clock j).
Proof.
  intros H. unfold datetime_le, datetime_compare, example_clock.
  cbn [year month day hour minute second microsecond then_compare N.compare
       Pos.compare Pos.compare_cont].
  destruct (N.compare_spec (N.of_nat (Nat.min i 59)) (N.of_nat (Nat.min j 59)));
    cbn; try discriminate. lia.
Defined.

(** ** The theorems at the concrete job *)

Lemma record_status_commits_witness :
  exists w' row params,
    _record_status end_state "ENDED" (fst started, snd started)
    = (Return tt, (fst started, w'))
    /\ trace w'
       = trace (snd started) ++ [EvExecute 0 insert_status params; EvCommit 0]
    /\ rows_of (committed w' "/tmp/run1/.journal.sqlite") "test_journal"
       = rows_of (committed (snd started) "/tmp/run1/.journal.sqlite")
           "test_journal" ++ [row]
    /\ rows_of (committed w' "/tmp/run1/.journal.sqlite") "job_info"
       = rows_of (committed (snd started) "/tmp/run1/.journal.sqlite")
           "job_info"
    /\ conns w' !! 0 = Some (Connection "/tmp/run1/.journal.sqlite" false None).
Proof.
  apply (record_status_commits (fst started) (snd started)
           "/tmp/run1/.journal.sqlite" 0 end_state "ENDED" example_active);
    eexists; vm_compute; reflexivity.
Defined.

Lemma timestamps_follow_clock_witness :
  exists s' w' rows,
    run counting_start counting_end [OnTestStart start_state; OnTestEnd end_state]
      (example_self, example_world)
    = (Return tt, (s', w'))
    /\ rows_of (committed w' (journal_file "/tmp/run1")) "test_journal"
       = rows_of (committed example_world (journal_file "/tmp/run1"))
           "test_journal" ++ rows
    /\ length rows = 2
    /\ (forall i row, rows !! i = Some row ->
          field "time" row = Some (SText (isoformat (example_clock (0 + i)))))
    /\ (forall i j ri rj ti tj,
          i <= j -> rows !! i = Some ri -> rows !! j = Some rj ->
          field "time" ri = Some (SText ti) ->
          field "time" rj = Some (SText tj) ->
          String.leb ti tj = true).
Proof.
  destruct (timestamps_follow_clock counting_start counting_end _ _ _ _ _ _ _
              example_startable)
    as (s' & w' & rows & Hrun & Hrows & Hlen & Htime & Horder & _).
  exists s', w', rows.
  split; [exact Hrun|]. split; [exact Hrows|]. split; [exact Hlen|].
  split; [exact Htime|].
  intros i j ri rj ti tj Hij Hi Hj Hti Htj.
  refine (proj1 (Horder _ _ i j ri rj ti tj Hij Hi Hj Hti Htj)).
  - intros k _. apply example_clock_valid.
  - intros k _. apply example_clock_monotone. cbn. lia.
Defined.

(** C3 as first stated, without the condition on the clock, fails: a test
    that starts at 01:59:59 and ends after the clock was set back has an
    [ENDED] row whose [time] is below that of its [STARTED] row. *)
Lemma timestamps_can_decrease :
  exists s' w',
    run counting_start counting_end [OnTestStart start_state; OnTestEnd end_state]
      (example_self, fallback_world)
    = (Return tt, (s', w'))
    /\ map (field "time")
         (rows_of (committed w' "/tmp/run1/.journal.sqlite") "test_journal")
       = [Some (SText "2014-11-02T01:59:59");
          Some (SText "2014-11-02T01:00:00")]
    /\ String.leb "2014-11-02T01:59:59" "2014-11-02T01:00:00" = false
    /\ (forall k, valid_datetime (fallback_clock k) = true).
Proof.
  do 2 eexists. split; [vm_compute; reflexivity|].
  split; [vm_compute; reflexivity|]. split; [reflexivity|].
  intros [|k]; [reflexivity|].
  unfold valid_datetime, fallback_clock.
  cbn [year month day hour minute second microsecond].
  assert (H : (N.of_nat (Nat.min k 59) <? 60)%N = true) by (apply N.ltb_lt; lia).
  rewrite H. reflexivity.
Qed.

Lemma example_catalog_ok :
  catalog_ok (committed (snd started) (journal_file "/tmp/run1")).
Proof.
  intros t tb [<-|[<-|[]]] H; vm_compute in H; injection H as <-; discriminate.
Defined.

Lemma schema_creation_idempotent_witness :
  exists s' w',
    _init_journal "/tmp/run1" (example_self, snd started)
    = (Return tt, (s', w'))
    /\ files w' = files (snd started)
    /\ trace w'
       = trace (snd started)
         ++ [EvConnect "/tmp/run1/.journal.sqlite" 1;
             EvExecute 1 (PragmaTableInfo "job_info") [];
             EvExecute 1 (PragmaTableInfo "test_journal") [];
             EvCommit 1].
Proof.
  destruct (schema_creation_idempotent example_self (snd started) "/tmp/run1")
    as (s' & w' & Hrun & Htr & _ & _ & _ & _ & Hsame & _).
  - apply not_elem_of_empty.
  - exact example_catalog_ok.
  - exists s', w'. split; [exact Hrun|].
    destruct Hsame as [Hfiles Hev].
    + intros t [<-|[<-|[]]]; eexists; vm_compute; reflexivity.
    + split; [exact Hfiles|]. rewrite Htr, Hev. reflexivity.
Defined.

Lemma job_info_single_row_witness :
  exists s' w',
    run counting_start counting_end [OnTestStart start_state; OnTestEnd end_state]
      (example_self, example_world)
    = (Return tt, (s', w'))
    /\ rows_of (committed w' (journal_file "/tmp/run1")) "job_info"
       = [[SText "job-123"]].
Proof.
  destruct (job_info_single_row counting_start counting_end _ _ _ _ _ _ _
              example_startable)
    as (s' & w' & Hrun & Hrows & _).
  - vm_compute. lia.
  - exists s', w'. split; [exact Hrun|exact Hrows].
Defined.

Lemma status_placement_witness :
  exists s' w' rows,
    run counting_start counting_end [OnTestStart start_state; OnTestEnd end_state]
      (example_self, example_world)
    = (Return tt, (s', w'))
    /\ rows_of (committed w' (journal_file "/tmp/run1")) "test_journal"
       = rows_of (committed example_world (journal_file "/tmp/run1"))
           "test_journal" ++ rows
    /\ Forall2 status_placed [OnTestStart start_state; OnTestEnd end_state] rows.
Proof.
  exact (status_placement counting_start counting_end _ _ _ _ _ _ _
           example_startable).
Defined.

Lemma lazy_init_once_witness :
  exists s' w',
    run counting_start counting_end [OnTestStart start_state; OnTestEnd end_state]
      (example_self, example_world)
    = (Return tt, (s', w'))
    /\ journal_initialized s' = true
    /\ conns w' = [Connection (journal_file "/tmp/run1") false None]
    /\ forall state, lazy_init_journal state (s', w') = (Return tt, (s', w')).
Proof.
  destruct (lazy_init_once counting_start counting_end) as [_ Hruns].
  destruct (Hruns _ _ _ _ _ _ _ example_startable)
    as (s' & w' & Hrun & _ & _ & _ & _ & Hcn & Hflag & _ & _ & Hskip).
  exists s', w'. split; [exact Hrun|]. split; [exact Hflag|].
  split; [exact Hcn|exact Hskip].
Defined.

Lemma journal_path_in_logdir_witness :
  exists s' w',
    run counting_start counting_end [OnTestStart start_state; OnTestEnd end_state]
      (example_self, example_world)
    = (Return tt, (s', w'))
    /\ journal_path s' = Some "/tmp/run1/.journal.sqlite".
Proof.
  destruct (journal_path_in_logdir counting_start counting_end)
    as (_ & _ & _ & Hruns).
  destruct (Hruns _ _ _ _ _ _ _ example_startable)
    as (s' & w' & h & Hrun & _ & Hp & _).
  exists s', w'. split; [exact Hrun|exact Hp].
Defined.

Lemma journal_append_only_witness :
  exists s' w' rows,
    run counting_start counting_end [OnTestStart start_state; OnTestEnd end_state]
      (example_self, example_world)
    = (Return tt, (s', w'))
    /\ rows_of (committed w' (journal_file "/tmp/run1")) "test_journal"
       = rows_of (committed example_world (journal_file "/tmp/run1"))
           "test_journal" ++ rows
    /\ Forall (fun row => field "flushed" row = Some (SInt 0)) rows.
Proof.
  destruct (journal_append_only counting_start counting_end)
    as (_ & _ & _ & Hruns).
  destruct (Hruns _ _ _ _ _ _ _ example_startable)
    as (s' & w' & rows & Hrun & _ & Hrows & Hfl & _).
  exists s', w', rows. auto.
Defined.

Lemma example_same_keys k :
  k <> "status" -> start_state !! k = end_state !! k.
Proof. intros H. unfold end_state. symmetry. now apply lookup_insert_ne. Defined.

Lemma start_test_ignores_status_witness :
  start_test counting_start start_state (fst started, snd started)
  = start_test counting_start end_state (fst started, snd started)
  /\ exists w' row,
       start_test counting_start start_state (fst started, snd started)
       = (Return tt, (set_base 0 (fst started), w'))
       /\ rows_of (committed w' "/tmp/run1/.journal.sqlite") "test_journal"
          = rows_of (committed (snd started) "/tmp/run1/.journal.sqlite")
              "test_journal" ++ [row]
       /\ field "status" row = Some SNull.
Proof.
  destruct (start_test_ignores_status counting_start counting_end
              (fst started) (snd started)
              start_state end_state example_same_keys (fun _ => eq_refl))
    as [Hsame Hruns].
  split; [exact Hsame|].
  apply (Hruns _ 0 0 example_active).
  - vm_compute. reflexivity.
  - eexists. vm_compute. reflexivity.
  - reflexivity.
Defined.

(** ** The scenario, run

    Test [testA] of job [job-123] starts and ends with [PASS]; the journal
    is then closed. *)

Example scenario_rows :
  let c := snd (run counting_start counting_end
                  [OnTestStart start_state; OnTestEnd end_state]
                  (example_self, example_world)) in
  let d := committed (snd c) "/tmp/run1/.journal.sqlite" in
  rows_of d "job_info" = [[SText "job-123"]]
  /\ rows_of d "test_journal"
     = [[SText "testA"; SText "2014-05-17T10:30:00"; SText "STARTED"; SNull;
         SInt 0];
        [SText "testA"; SText "2014-05-17T10:30:01"; SText "ENDED";
         SText "PASS"; SInt 0]]
  /\ fst (end_tests c) = Return tt.
Proof. vm_compute. repeat split. Qed.

Example end_test_needs_status :
  fst (end_test counting_end start_state (example_self, example_world))
  = Raise (KeyError "status").
Proof. vm_compute. reflexivity. Qed.

(** A notification that lacks [job_unique_id] fails while the recorder
    initialises, after the connection was opened: the flag stays clear,
    and the next notification initialises again, on a new connection. *)
Example initialisation_retried :
  let c1 := start_test counting_start (delete "job_unique_id" start_state)
              (example_self, example_world) in
  let c2 := start_test counting_start start_state (snd c1) in
  fst c1 = Raise (KeyError "job_unique_id")
  /\ journal_initialized (fst (snd c1)) = false
  /\ length (conns (snd (snd c1))) = 1
  /\ fst c2 = Return tt
  /\ journal_initialized (fst (snd c2)) = true
  /\ length (conns (snd (snd c2))) = 2.
Proof. vm_compute. repeat split. Qed.

(** ** Failures and edge cases at the concrete job *)

(** A disk on which the journal of the job cannot be created. *)
Definition readonly_world : World :=
  mkWorld ∅ {["/tmp/run1/.journal.sqlite"]} [] example_clock 0 [].

(** A journal file that another program has written: its [job_info]
    has no [unique_id]. *)
Definition foreign_world : World :=
  mkWorld
    {["/tmp/run1/.journal.sqlite" :=
        {["job_info" := Table [Column "id" "INTEGER" false None] []]}]}
    ∅ [] example_clock 0 [].

(** A base class whose [end_test] raises. *)
Definition failing_end (b : nat) (_ : pydict) : exn + nat :=
  inl (OtherError "stream closed").

Lemma first_notification_needs_logdir_witness :
  notify counting_start counting_end
    (OnTestStart (delete "job_logdir" start_state))
    (example_self, example_world)
  = (Raise (KeyError "job_logdir"), (example_self, example_world)).
Proof.
  apply (first_notification_needs_logdir counting_start counting_end
           (OnTestStart (delete "job_logdir" start_state))
           example_self example_world);
    vm_compute; reflexivity.
Defined.

Lemma storage_unavailable_witness :
  notify counting_start counting_end (OnTestStart start_state)
    (example_self, readonly_world)
  = (Raise (OperationalError "unable to open database file"),
     (path_assigned "/tmp/run1/.journal.sqlite" example_self, readonly_world)).
Proof.
  apply (storage_unavailable counting_start counting_end
           (OnTestStart start_state) example_self readonly_world "/tmp/run1").
  - reflexivity.
  - vm_compute. reflexivity.
  - vm_compute. reflexivity.
Defined.

Lemma later_job_needs_no_id_witness :
  exists w',
    notify counting_start counting_end
      (OnTestStart (delete "job_unique_id" start_state))
      (example_self, snd started)
    = (Return tt,
       (set_base 0 (activated (journal_file "/tmp/run1") 1 example_self), w'))
    /\ rows_of (committed w' (journal_file "/tmp/run1")) "job_info"
       = [[SText "job-123"]].
Proof.
  destruct (later_job_needs_no_id counting_start counting_end
              (OnTestStart (delete "job_unique_id" start_state))
              example_self (snd started) "/tmp/run1" 0)
    as (w' & Hrun & Hjob & _).
  - reflexivity.
  - vm_compute. reflexivity.
  - apply not_elem_of_empty.
  - split; intros tb H; vm_compute in H; injection H as <-; reflexivity.
  - vm_compute. discriminate.
  - split; eexists; vm_compute; reflexivity.
  - reflexivity.
  - exists w'. split; [exact Hrun|]. rewrite Hjob. vm_compute. reflexivity.
Defined.

Lemma job_id_missing_witness :
  exists s1 w1,
    notify counting_start counting_end
      (OnTestStart (delete "job_unique_id" start_state))
      (example_self, example_world)
    = (Raise (KeyError "job_unique_id"), (s1, w1))
    /\ journal_initialized s1 = false
    /\ conns w1 = [Connection (journal_file "/tmp/run1") false None].
Proof.
  destruct (job_id_missing counting_start counting_end
              (OnTestStart (delete "job_unique_id" start_state))
              example_self example_world "/tmp/run1")
    as (s1 & w1 & Hrun & Hflag & _ & _ & Hcn & _).
  - reflexivity.
  - vm_compute. reflexivity.
  - vm_compute. reflexivity.
  - apply not_elem_of_empty.
  - split; intros tb H; vm_compute in H; discriminate.
  - vm_compute. reflexivity.
  - exists s1, w1. split; [exact Hrun|]. split; [exact Hflag|exact Hcn].
Defined.

Lemma end_test_without_status_witness :
  end_test counting_end start_state (fst started, snd started)
  = (Raise (KeyError "status"), (set_base 1 (fst started), snd started)).
Proof.
  apply (end_test_without_status counting_end (fst started) (snd started)
           "/tmp/run1/.journal.sqlite" 0 start_state 1 example_active);
    vm_compute; reflexivity.
Defined.

Lemma notification_needs_tagged_name_witness :
  notify counting_start counting_end
    (OnTestStart (delete "tagged_name" start_state))
    (fst started, snd started)
  = (Raise (KeyError "tagged_name"), (set_base 0 (fst started), snd started))
  /\ notify counting_start counting_end
       (OnTestEnd (delete "tagged_name" end_state))
       (fst started, snd started)
     = (Raise (KeyError "tagged_name"), (set_base 1 (fst started), snd started))
  /\ notify counting_start counting_end
       (OnTestEnd (delete "tagged_name" start_state))
       (fst started, snd started)
     = (Raise (KeyError "status"), (set_base 1 (fst started), snd started)).
Proof.
  split; [|split].
  - refine (eq_trans
             (notification_needs_tagged_name counting_start counting_end
             (fst started) (snd started) "/tmp/run1/.journal.sqlite" 0
             (OnTestStart (delete "tagged_name" start_state)) 0 example_active
                _ _) _);
      vm_compute; reflexivity.
  - refine (eq_trans
             (notification_needs_tagged_name counting_start counting_end
             (fst started) (snd started) "/tmp/run1/.journal.sqlite" 0
             (OnTestEnd (delete "tagged_name" end_state)) 1 example_active
                _ _) _);
      vm_compute; reflexivity.
  - refine (eq_trans
             (notification_needs_tagged_name counting_start counting_end
             (fst started) (snd started) "/tmp/run1/.journal.sqlite" 0
             (OnTestEnd (delete "tagged_name" start_state)) 1 example_active
                _ _) _);
      vm_compute; reflexivity.
Defined.

Lemma notification_after_close_witness :
  exists w1 w2,
    end_tests (fst started, snd started) = (Return tt, (fst started, w1))
    /\ notify counting_start counting_end (OnTestEnd end_state)
         (fst started, w1)
       = (Raise closed_database, (set_base 1 (fst started), w2))
    /\ files w2 = files (snd started).
Proof.
  destruct (notification_after_close counting_start counting_end
              (fst started) (snd started) "/tmp/run1/.journal.sqlite" 0
              (OnTestEnd end_state) 1 example_active)
    as (w1 & w2 & Hend & Hrun & Hfiles & _).
  - split; eexists; vm_compute; reflexivity.
  - reflexivity.
  - exists w1, w2. split; [exact Hend|]. split; [exact Hrun|exact Hfiles].
Defined.

Lemma end_tests_twice_witness :
  exists w1 w2,
    end_tests (fst started, snd started) = (Return tt, (fst started, w1))
    /\ end_tests (fst started, w1) = (Return tt, (fst started, w2))
    /\ files w2 = files (snd started)
    /\ conns w2 = conns w1
    /\ conns w2 !! 0 = Some (Connection "/tmp/run1/.journal.sqlite" true None).
Proof.
  exact (end_tests_twice (fst started) (snd started)
           "/tmp/run1/.journal.sqlite" 0 example_active).
Defined.

Lemma base_class_raises_witness :
  notify counting_start failing_end (OnTestEnd end_state)
    (fst started, snd started)
  = (Raise (OtherError "stream closed"), (fst started, snd started)).
Proof.
  destruct (base_class_raises counting_start failing_end
              (OnTestEnd end_state) (OtherError "stream closed"))
    as [Hactive _].
  apply (Hactive (fst started) (snd started) "/tmp/run1/.journal.sqlite" 0
           example_active).
  reflexivity.
Defined.

Lemma foreign_job_info_table_witness :
  exists msg s' w',
    notify counting_start counting_end (OnTestStart start_state)
      (example_self, foreign_world)
    = (Raise (OperationalError msg), (s', w'))
    /\ journal_initialized s' = false
    /\ committed w' (journal_file "/tmp/run1") !! "job_info"
       = Some (Table [Column "id" "INTEGER" false None] []).
Proof.
  destruct (foreign_job_info_table counting_start counting_end
              (OnTestStart start_state) example_self foreign_world
              "/tmp/run1" (Table [Column "id" "INTEGER" false None] []))
    as (msg & s' & w' & Hrun & Hflag & _ & Hkept & _).
  - reflexivity.
  - vm_compute. reflexivity.
  - apply not_elem_of_empty.
  - intros t tb [<-|[<-|[]]] H; vm_compute in H;
      first [discriminate | injection H as <-; discriminate].
  - vm_compute. reflexivity.
  - reflexivity.
  - exists msg, s', w'. split; [exact Hrun|]. split; [exact Hflag|exact Hkept].
Defined.

Lemma rows_carry_tag_witness :
  exists s' w' rows,
    run counting_start counting_end [OnTestStart start_state; OnTestEnd end_state]
      (example_self, example_world)
    = (Return tt, (s', w'))
    /\ rows_of (committed w' (journal_file "/tmp/run1")) "test_journal"
       = rows_of (committed example_world (journal_file "/tmp/run1"))
           "test_journal" ++ rows
    /\ Forall2 tag_placed [OnTestStart start_state; OnTestEnd end_state] rows.
Proof.
  exact (rows_carry_tag counting_start counting_end _ _ _ _ _ _ _
           example_startable).
Defined.

Lemma isoformat_shape_witness :
  String.length (isoformat (example_clock 0)) = 19
  /\ (isoformat (example_clock 0) = isoformat (example_clock 1) ->
      example_clock 0 = example_clock 1).
Proof.
  exact (isoformat_shape (example_clock 0) (example_clock 1)
           (example_clock_valid 0) (example_clock_valid 1)).
Defined.

Lemma late_logdir_is_ignored_witness :
  exists w',
    notify counting_start counting_end
      (OnTestEnd (<["job_logdir" := "/tmp/run2"]> end_state))
      (fst started, snd started)
    = (Return tt, (set_base 1 (fst started), w'))
    /\ files w' !! journal_file "/tmp/run2" = None
    /\ conns w' = conns (snd started).
Proof.
  destruct (late_logdir_is_ignored counting_start counting_end
              (fst started) (snd started) "/tmp/run1/.journal.sqlite" 0
              (OnTestEnd (<["job_logdir" := "/tmp/run2"]> end_state)) 1
              "/tmp/run2" example_active)
    as (w' & Hrun & _ & Hfile & Hcn & _).
  - split; eexists; vm_compute; reflexivity.
  - reflexivity.
  - vm_compute. reflexivity.
  - vm_compute. discriminate.
  - exists w'. split; [exact Hrun|]. split; [|exact Hcn].
    rewrite Hfile. vm_compute. reflexivity.
Defined.

Lemma rows_survive_later_failure_witness :
  exists s' w',
    run counting_start counting_end
      [OnTestStart start_state; OnTestEnd end_state;
       OnTestStart (delete "tagged_name" start_state); OnTestEnd end_state]
      (example_self, example_world)
    = (Raise (KeyError "tagged_name"), (s', w'))
    /\ rows_of (committed w' (journal_file "/tmp/run1")) "test_journal"
       = rows_of (committed example_world (journal_file "/tmp/run1"))
           "test_journal"
         ++ rows_written example_clock 0
              [OnTestStart start_state; OnTestEnd end_state].
Proof.
  destruct (rows_survive_later_failure counting_start counting_end
              example_self example_world (OnTestStart start_state)
              [OnTestEnd end_state] "/tmp/run1" "job-123" 1
              (OnTestStart (delete "tagged_name" start_state)) 1
              [OnTestEnd end_state] example_startable)
    as (s' & w' & Hrun & Hrows & _).
  - vm_compute. reflexivity.
  - eexists. vm_compute. reflexivity.
  - reflexivity.
  - exists s', w'. split; [exact Hrun|exact Hrows].
Defined.

(** ** The plugin, with a parser that keeps the list of what was
    registered on it *)

Definition recording_add_argument (ap : list string) (flag action help : string)
  : exn + list string :=
  if bool_decide (flag ∈ ap)
  then inl (OtherError "conflicting option string")
  else inr (ap ++ [flag]).

Definition recording_set_defaults (ap : list string) (key : string)
    (_ : result_class) : exn + list string :=
  inr (ap ++ [key]).

(** Parser 0 has its runner at 1 and its application at 2; the parser at
    3 has no runner yet. *)
Definition example_heap : Heap (list string) :=
  mkHeap
    (fun p => if Nat.eqb p 3 then mkParser None (Some 2)
              else mkParser (Some 1) (Some 2))
    (fun _ => []).

Definition new_plugin : Journal := mkJournal None None.

Lemma activate_does_nothing_witness :
  activate recording_set_defaults (mkNamespace None) (new_plugin, example_heap)
  = (Return tt, (new_plugin, example_heap)).
Proof.
  apply (activate_does_nothing recording_set_defaults (mkNamespace None)
           new_plugin example_heap).
  left. discriminate.
Defined.

Lemma configure_then_activate_witness :
  exists c,
    configure recording_add_argument 0 (new_plugin, example_heap)
    = (Return tt, c)
    /\ activate recording_set_defaults (mkNamespace (Some true)) c
       = (Return tt,
          (mkJournal (Some 0) (Some true),
           mkHeap (parsers example_heap)
             (<[2 := ["journal_result"] ]>
                (<[1 := ["--journal"] ]> (argparsers example_heap))))).
Proof.
  apply (configure_then_activate recording_add_argument recording_set_defaults
           0 1 2 new_plugin example_heap ["--journal"] ["journal_result"]);
    reflexivity.
Defined.

Lemma activate_after_failed_configure_witness :
  activate recording_set_defaults (mkNamespace (Some true))
    (new_plugin, example_heap)
  = (Return tt, (new_plugin, example_heap))
  /\ configure recording_add_argument 3 (new_plugin, example_heap)
     = (Raise (AttributeError "runner"), (set_parser 3 new_plugin, example_heap))
  /\ activate recording_set_defaults (mkNamespace (Some true))
       (set_parser 3 new_plugin, example_heap)
     = (Return tt,
        (set_parser 3 new_plugin,
         mkHeap (parsers example_heap)
           (<[2 := ["journal_result"] ]> (argparsers example_heap)))).
Proof.
  apply (activate_after_failed_configure recording_add_argument
           recording_set_defaults 3 2 new_plugin example_heap
           ["journal_result"]);
    reflexivity.
Defined.
